(** * go-stun: the STUN message codec and the RFC 3489 discovery client

    A shallow embedding of [stun/attribute.go], [stun/packet.go] and
    [stun/client.go].

    - Go's [uint16] is a [Z] kept in [0, 65536) by [wrap16]; every
      arithmetic operation of the source on a [uint16] is followed by its
      wrap-around.
    - A [[]byte] is a [list byte].  A slice expression [s[lo:hi]] panics
      when its bounds are out of range; [slice] checks them against the
      length of the list.  (Go checks the upper bound against the capacity,
      which is at least the length, so a run without [Panic] here is a run
      without a bounds panic in Go.)
    - A Go function returning [(value, error)] returns a [res]; a run-time
      panic is the [Panic] outcome of [exec]. *)

From Stdlib Require Import ZArith List Lia Bool String.
From Stdlib Require Import Strings.Byte.
Import ListNotations.

Open Scope Z_scope.

(** ** Outcomes *)

(** Go [error] values: the ones made by [errors.New], and the ones of the
    [net] package, which answer [Timeout()]. *)
Inductive error : Type :=
| errors_New (msg : string)
| net_Error (timeout : bool) (msg : string).

Inductive res (A : Type) : Type :=
| Ok (a : A)
| Err (e : error).
Arguments Ok {A} a.
Arguments Err {A} e.

(** The outcome of running a piece of code: it returns, it panics, or the
    fuel given to a loop ran out before the loop ended. *)
Inductive exec (A : Type) : Type :=
| Ret (a : A)
| Panic
| OutOfFuel.
Arguments Ret {A} a.
Arguments Panic {A}.
Arguments OutOfFuel {A}.

Definition bind {A B : Type} (m : exec A) (k : A -> exec B) : exec B :=
  match m with
  | Ret a => k a
  | Panic => Panic
  | OutOfFuel => OutOfFuel
  end.

Notation "x <- m ;; k" := (bind m (fun x => k))
  (at level 61, m at next level, right associativity).

(** ** Machine integers, bytes and slices *)

Definition wrap16 (z : Z) : Z := z mod 65536.

Definition len {A : Type} (s : list A) : Z := Z.of_nat (List.length s).

Definition Z_of_byte (b : byte) : Z := Z.of_N (Byte.to_N b).

(** Go's conversion [byte(v)]: the low eight bits. *)
Definition byte_of_Z (z : Z) : byte :=
  match Byte.of_N (Z.to_N (z mod 256)) with
  | Some b => b
  | None => x00
  end.

(** [s[lo:hi]] *)
Definition slice {A : Type} (s : list A) (lo hi : Z) : exec (list A) :=
  if (0 <=? lo) && (lo <=? hi) && (hi <=? len s)
  then Ret (firstn (Z.to_nat (hi - lo)) (skipn (Z.to_nat lo) s))
  else Panic.

(** [s[lo:]] *)
Definition slice_from {A : Type} (s : list A) (lo : Z) : exec (list A) :=
  slice s lo (len s).

(** [binary.BigEndian.Uint16]: [uint16(b[1]) | uint16(b[0])<<8]. *)
Definition Uint16 (b : list byte) : exec Z :=
  match b with
  | b0 :: b1 :: _ => Ret (Z.lor (Z_of_byte b1) (Z.shiftl (Z_of_byte b0) 8))
  | _ => Panic
  end.

(** [binary.BigEndian.PutUint16] into a two-byte buffer. *)
Definition PutUint16 (v : Z) : list byte :=
  [byte_of_Z (Z.shiftr v 8); byte_of_Z v].

(** [binary.BigEndian.PutUint32] into a four-byte buffer. *)
Definition PutUint32 (v : Z) : list byte :=
  [byte_of_Z (Z.shiftr v 24); byte_of_Z (Z.shiftr v 16);
   byte_of_Z (Z.shiftr v 8); byte_of_Z v].

Definition bytes_Equal (a b : list byte) : bool :=
  if list_eq_dec Byte.byte_eq_dec a b then true else false.

(** ** utils.go *)

(** Modelled from the spec: [align] of utils.go, which is not among the
    sources.  The spec gives it as the smallest multiple of 4 that is at
    least [n]; its callers and its test use it at type
    [uint16 -> uint16], hence the wrap-around of the result. *)
Definition align (n : Z) : Z := wrap16 (4 * ((n + 3) / 4)).

(** Modelled from the spec: [padding] of utils.go, which is not among the
    sources.  The spec gives it as: pad the raw value with zero bytes up to
    the next multiple of 4. *)
Definition padding (bs : list byte) : list byte :=
  bs ++ repeat x00 (Z.to_nat ((4 - len bs mod 4) mod 4)).

(** ** attribute.go *)

Record attribute : Type := {
  a_types : Z;          (* uint16 *)
  a_length : Z;         (* uint16 *)
  a_value : list byte
}.

Definition attributeMappedAddress : Z := 0x0001.
Definition attributeResponseAddress : Z := 0x0002.
Definition attributeChangeRequest : Z := 0x0003.
Definition attributeSourceAddress : Z := 0x0004.
Definition attributeChangedAddress : Z := 0x0005.

Definition newAttribute (types : Z) (value : list byte) : attribute :=
  let v := padding value in
  {| a_types := types; a_length := wrap16 (len v); a_value := v |}.

Definition newChangeReqAttribute (changeIP changePort : bool) : attribute :=
  let v3 := 0 in
  let v3 := if changeIP then Z.lor v3 0x04 else v3 in
  let v3 := if changePort then Z.lor v3 0x02 else v3 in
  newAttribute attributeChangeRequest [x00; x00; x00; byte_of_Z v3].

(** [net.UDPAddr] *)
Record UDPAddr : Type := {
  IP : list byte;
  Port : Z;
  Zone : string
}.

(** [commAddr]: the port is read from [value[2:4]], the address is
    [value[4:length]]; both slice expressions are bounds-checked.  On a
    value shorter than four bytes Go may let the first one pass (its bound
    is the capacity of the slice); the second one then fails all the same,
    its low bound being above [length] (lemma [commAddr_short]). *)
Definition commAddr (v : attribute) : exec UDPAddr :=
  pb <- slice (a_value v) 2 4 ;;
  port <- Uint16 pb ;;
  ip <- slice (a_value v) 4 (a_length v) ;;
  Ret {| IP := ip; Port := port; Zone := EmptyString |}.

(** ** packet.go *)

Record packet : Type := {
  p_types : Z;          (* uint16 *)
  p_length : Z;         (* uint16 *)
  transID : list byte;
  attributes : list attribute;
  orgHost : option UDPAddr
}.

Definition msgTypeBindingRequest : Z := 0x0001.
Definition msgTypeBindingResponse : Z := 0x0101.

Definition magicCookie : Z := 0xA2400227.

Definition addAttribute (v : packet) (a : attribute) : packet :=
  {| p_types := p_types v;
     p_length := wrap16 (p_length v + wrap16 (align (a_length a) + 4));
     transID := transID v;
     attributes := attributes v ++ [a];
     orgHost := orgHost v |}.

(** [newPacket], given what [rand.Read] answered: random bytes, cut or
    zero-extended to the twelve the function asks for, or the error of the
    random source. *)
Definition newPacket (rnd : res (list byte)) : res packet :=
  match rnd with
  | Err err => Err err
  | Ok bs =>
      Ok {| p_types := 0;
            p_length := 0;
            transID := PutUint32 magicCookie ++ firstn 12 (bs ++ repeat x00 12);
            attributes := [];
            orgHost := None |}
  end.

(** The loop of [parsePackage] over the attribute stream.  [pos] is a
    [uint16]; [fuel] bounds the number of iterations. *)
Fixpoint parseAttributes (fuel : nat) (pkgData : list byte) (pos : Z)
    (pkt : packet) : exec (res packet) :=
  match fuel with
  | O => OutOfFuel
  | S fuel' =>
      if wrap16 (pos + 4) <? wrap16 (len pkgData) then
        tb <- slice pkgData pos (wrap16 (pos + 2)) ;;
        types <- Uint16 tb ;;
        lb <- slice pkgData (wrap16 (pos + 2)) (wrap16 (pos + 4)) ;;
        length <- Uint16 lb ;;
        let end_ := wrap16 (wrap16 (pos + 4) + length) in
        if (end_ <? wrap16 (pos + 4)) || (end_ >? wrap16 (len pkgData)) then
          Ret (Err (errors_New "received data format mismatch"))
        else
          value <- slice pkgData (wrap16 (pos + 4)) end_ ;;
          let attribute := newAttribute types value in
          let pkt := addAttribute pkt attribute in
          parseAttributes fuel' pkgData
            (wrap16 (pos + wrap16 (align length + 4))) pkt
      else Ret (Ok pkt)
  end.

Definition parsePackage (pkgData : list byte) : exec (res packet) :=
  if len pkgData <? 20 then
    Ret (Err (errors_New "received data length too short"))
  else if len pkgData >? 65535 then
    Ret (Err (errors_New "received data length too long"))
  else
    tb <- slice pkgData 0 2 ;;
    types <- Uint16 tb ;;
    lb <- slice pkgData 2 4 ;;
    length <- Uint16 lb ;;
    tid <- slice pkgData 4 20 ;;
    rest <- slice_from pkgData 20 ;;
    parseAttributes (S (List.length rest)) rest 0
      {| p_types := types; p_length := length; transID := tid;
         attributes := []; orgHost := None |}.

Definition serialize (v : packet) : list byte :=
  let packetBytes := PutUint16 (p_types v) ++ PutUint16 (p_length v) in
  let packetBytes := packetBytes ++ transID v in
  fold_left
    (fun packetBytes a =>
       ((packetBytes ++ PutUint16 (a_types a)) ++ PutUint16 (a_length a))
         ++ a_value a)
    (attributes v) packetBytes.

(** [findAttrAddr]: [None] is the nil pointer. *)
Fixpoint findAttrAddr_loop (attrs : list attribute) (attribute : Z)
    : exec (option UDPAddr) :=
  match attrs with
  | [] => Ret None
  | attr :: rest =>
      if a_types attr =? attribute then
        addr <- commAddr attr ;; Ret (Some addr)
      else findAttrAddr_loop rest attribute
  end.

Definition findAttrAddr (v : packet) (attribute : Z) : exec (option UDPAddr) :=
  findAttrAddr_loop (attributes v) attribute.

Definition getSourceAddr (v : packet) := findAttrAddr v attributeSourceAddress.
Definition getMappedAddr (v : packet) := findAttrAddr v attributeMappedAddress.
Definition getChangedAddr (v : packet) := findAttrAddr v attributeChangedAddress.

(** The reply of [TestParsePackage], copied from the test. *)
Definition hex (l : list Z) : list byte := map byte_of_Z l.

Definition sample_reply : list byte := hex
  [0x01; 0x01; 0x00; 0x48; 0xa2; 0x40; 0x02; 0x27; 0xa6; 0xb0; 0x9f; 0x59; 0x70; 0xb5; 0xf0; 0x49;
   0x6e; 0x30; 0xc2; 0x77; 0x00; 0x01; 0x00; 0x08; 0x00; 0x01; 0xb5; 0x59; 0x9a; 0x59; 0x05; 0x01;
   0x00; 0x04; 0x00; 0x08; 0x00; 0x01; 0x0d; 0x96; 0xd8; 0x5d; 0xf6; 0x12; 0x00; 0x05; 0x00; 0x08;
   0x00; 0x01; 0x0d; 0x97; 0xd8; 0x5d; 0xf6; 0x11; 0x80; 0x20; 0x00; 0x08; 0x00; 0x01; 0x17; 0x19;
   0x38; 0x19; 0x07; 0x26; 0x80; 0x22; 0x00; 0x14; 0x56; 0x6f; 0x76; 0x69; 0x64; 0x61; 0x2e; 0x6f;
   0x72; 0x67; 0x20; 0x30; 0x2e; 0x39; 0x38; 0x2d; 0x43; 0x50; 0x43; 0x00].

(** ** const.go *)

Inductive NATType : Type :=
| NATTypeUnknown
| NATTypeOpenInternet
| NATTypeFullCone
| NATTypeRestricted
| NATTypePortRestricted
| NATTypeSymmetricUDPFirewall
| NATTypeSymmetric
| NATTypeUdpBlocked
| NATTypeError.

(** ** The environment of the client

    The client talks to three things outside the program: the random
    source ([crypto/rand]), the socket ([net.PacketConn]) and the clock
    behind the read deadline.  A [World] scripts their answers, one queue
    per call, and logs what the client asked for.  When a script is
    exhausted the environment answers the uneventful way: the random source
    delivers zero bytes, a write sends everything, a deadline is set, and a
    read times out.  A read that times out is also how a deadline shows:
    [ReadErr (net_Error true _)] in the script ends the current listening
    window. *)

Inductive write_result : Type :=
| WriteAll
| WriteN (n : Z)
| WriteErr (e : error).

Inductive read_result : Type :=
| ReadData (data : list byte) (peer : UDPAddr)
| ReadErr (e : error).

Record World : Type := {
  rand_q : list (res (list byte));
  write_q : list write_result;
  deadline_q : list (option error);
  read_q : list read_result;
  sent : list (list byte * option UDPAddr);   (* every WriteTo call *)
  deadlines : list Z                          (* every read deadline, in ms *)
}.

Definition rand_Read (w : World) : res (list byte) * World :=
  match rand_q w with
  | [] => (Ok [], w)
  | r :: q =>
      (r, {| rand_q := q; write_q := write_q w; deadline_q := deadline_q w;
             read_q := read_q w; sent := sent w; deadlines := deadlines w |})
  end.

(** [conn.WriteTo]: the number of bytes written and the error. *)
Definition WriteTo (b : list byte) (addr : option UDPAddr) (w : World)
    : (Z * option error) * World :=
  let r := match write_q w with
           | [] | WriteAll :: _ => (len b, None)
           | WriteN n :: _ => (n, None)
           | WriteErr e :: _ => (0, Some e)
           end in
  (r, {| rand_q := rand_q w; write_q := tl (write_q w);
         deadline_q := deadline_q w; read_q := read_q w;
         sent := sent w ++ [(b, addr)]; deadlines := deadlines w |}).

(** [conn.SetReadDeadline(time.Now().Add(ms * time.Millisecond))] *)
Definition SetReadDeadline (ms : Z) (w : World) : option error * World :=
  let r := match deadline_q w with
           | [] => None
           | r :: _ => r
           end in
  (r, {| rand_q := rand_q w; write_q := write_q w;
         deadline_q := tl (deadline_q w); read_q := read_q w;
         sent := sent w; deadlines := deadlines w ++ [ms] |}).

Definition set_read_q (w : World) (q : list read_result) : World :=
  {| rand_q := rand_q w; write_q := write_q w; deadline_q := deadline_q w;
     read_q := q; sent := sent w; deadlines := deadlines w |}.

(** [nerr, ok := err.(net.Error); ok && nerr.Timeout()] *)
Definition is_timeout (e : error) : bool :=
  match e with
  | net_Error t _ => t
  | errors_New _ => false
  end.

(** ** client.go *)

Record Client : Type := {
  nLocalAddr : option UDPAddr;
  nSrvAddr : option UDPAddr;
  nChangedAddr : option UDPAddr;
  nMappedAddr : option UDPAddr
}.

Definition maxRetransmitNum : nat := 9.
Definition defRetransmitIntervalMs : Z := 100.
Definition maxTimeoutMs : Z := 1600.
Definition maxPacketSize : nat := 1024.

Definition chkfun : Type := Client -> packet -> exec bool.

Definition set_orgHost (p : packet) (h : option UDPAddr) : packet :=
  {| p_types := p_types p; p_length := p_length p; transID := transID p;
     attributes := attributes p; orgHost := h |}.

Definition set_types (p : packet) (t : Z) : packet :=
  {| p_types := t; p_length := p_length p; transID := transID p;
     attributes := attributes p; orgHost := orgHost p |}.

(** [buildBindingRequest]: [None] is the nil packet. *)
Definition buildBindingRequest (changeIP changePort : bool) (w : World)
    : option packet * World :=
  let (rnd, w) := rand_Read w in
  match newPacket rnd with
  | Err _ => (None, w)
  | Ok pkt =>
      let pkt := set_types pkt msgTypeBindingRequest in
      if changeIP || changePort then
        let attribute := newChangeReqAttribute changeIP changePort in
        (Some (addAttribute pkt attribute), w)
      else (Some pkt, w)
  end.

(** The inner [for] of [fsmSendPackageWaitReply]: read datagrams until the
    deadline.  [None] is the [break] on a timeout; [Some r] is a [return]. *)
Fixpoint listen (c : Client) (rqst : packet) (fchk : chkfun)
    (rq : list read_result)
    : option (exec (res (option packet))) * list read_result :=
  match rq with
  | [] => (None, [])
  | ReadErr err :: rq' =>
      if is_timeout err then (None, rq') else (Some (Ret (Err err)), rq')
  | ReadData data peerAddr :: rq' =>
      match parsePackage (firstn maxPacketSize data) with
      | Ret (Err err) => (Some (Ret (Err err)), rq')
      | Ret (Ok p) =>
          if negb (bytes_Equal (transID rqst) (transID p)) then
            listen c rqst fchk rq'
          else
            let p := set_orgHost p (Some peerAddr) in
            match fchk c p with
            | Ret false => listen c rqst fchk rq'
            | Ret true => (Some (Ret (Ok (Some p))), rq')
            | Panic => (Some Panic, rq')
            | OutOfFuel => (Some OutOfFuel, rq')
            end
      | Panic => (Some Panic, rq')
      | OutOfFuel => (Some OutOfFuel, rq')
      end
  end.

(** The outer [for i := 0; i < maxRetransmitNum; i++], with [n] iterations
    left. *)
Fixpoint retransmit (n : nat) (c : Client) (rqst : packet)
    (rqstPkgData : list byte) (srvAddr : option UDPAddr) (fchk : chkfun)
    (timeout : Z) (w : World) : exec (res (option packet)) * World :=
  match n with
  | O => (Ret (Ok None), w)
  | S n' =>
      let '((length, err), w) := WriteTo rqstPkgData srvAddr w in
      match err with
      | Some err => (Ret (Err err), w)
      | None =>
          if negb (length =? len rqstPkgData) then
            (Ret (Err (errors_New "error in sending rqstPkgData")), w)
          else
            let (err, w) := SetReadDeadline timeout w in
            match err with
            | Some err => (Ret (Err err), w)
            | None =>
                let timeout :=
                  if timeout <? maxTimeoutMs then timeout * 2 else timeout in
                match listen c rqst fchk (read_q w) with
                | (Some r, rq) => (r, set_read_q w rq)
                | (None, rq) =>
                    retransmit n' c rqst rqstPkgData srvAddr fchk timeout
                      (set_read_q w rq)
                end
            end
      end
  end.

(** [fsmSendPackageWaitReply]: [rqst.serialize()] dereferences [rqst]. *)
Definition fsmSendPackageWaitReply (c : Client) (rqst : option packet)
    (srvAddr : option UDPAddr) (fchk : chkfun) (w : World)
    : exec (res (option packet)) * World :=
  match rqst with
  | None => (Panic, w)
  | Some rqst =>
      retransmit maxRetransmitNum c rqst (serialize rqst) srvAddr fchk
        defRetransmitIntervalMs w
  end.

Definition is_nil {A : Type} (p : option A) : bool :=
  match p with
  | None => true
  | Some _ => false
  end.

Definition set_nMappedAddr (c : Client) (a : option UDPAddr) : Client :=
  {| nLocalAddr := nLocalAddr c; nSrvAddr := nSrvAddr c;
     nChangedAddr := nChangedAddr c; nMappedAddr := a |}.

Definition set_nChangedAddr (c : Client) (a : option UDPAddr) : Client :=
  {| nLocalAddr := nLocalAddr c; nSrvAddr := nSrvAddr c;
     nChangedAddr := a; nMappedAddr := nMappedAddr c |}.

(** What a probe leaves behind: its outcome, the client, the world. *)
Definition probe_result : Type :=
  (exec (NATType * option error) * Client * World)%type.

Definition fchk1 : chkfun := fun cli pkg =>
  mappedAddr <- getMappedAddr pkg ;;
  changedAddr <- getChangedAddr pkg ;;
  if is_nil mappedAddr || is_nil changedAddr then Ret false else Ret true.

Definition doTest1 (srvAddr : option UDPAddr) (c : Client) (w : World)
    : probe_result :=
  let (pkg, w) := buildBindingRequest false false w in
  let (r, w) := fsmSendPackageWaitReply c pkg srvAddr fchk1 w in
  match r with
  | Ret (Err err) => (Ret (NATTypeError, Some err), c, w)
  | Ret (Ok None) => (Ret (NATTypeUdpBlocked, None), c, w)
  | Ret (Ok (Some reply)) =>
      match getMappedAddr reply with
      | Ret m =>
          let c := set_nMappedAddr c m in
          match getChangedAddr reply with
          | Ret ch => (Ret (NATTypeUnknown, None), set_nChangedAddr c ch, w)
          | Panic => (Panic, c, w)
          | OutOfFuel => (OutOfFuel, c, w)
          end
      | Panic => (Panic, c, w)
      | OutOfFuel => (OutOfFuel, c, w)
      end
  | Panic => (Panic, c, w)
  | OutOfFuel => (OutOfFuel, c, w)
  end.

Definition fchk3 : chkfun := fun cli pkg =>
  mappedAddr <- getMappedAddr pkg ;;
  if is_nil mappedAddr then Ret false else Ret true.

(** [fchk] of [doTest4]: the type assertion of [srvAddr] to a UDP address
    and [pkg.orgHost] are pointers, dereferenced for their [Port]. *)
Definition fchk4 (srvAddr : option UDPAddr) : chkfun := fun cli pkg =>
  match srvAddr, orgHost pkg with
  | Some srvUdpAddr, Some h =>
      if negb (Port h =? Port srvUdpAddr) then Ret true else Ret false
  | _, _ => Panic
  end.

Definition doTest4 (srvAddr : option UDPAddr) (c : Client) (w : World)
    : probe_result :=
  let (pkg, w) := buildBindingRequest false true w in
  let (r, w) := fsmSendPackageWaitReply c pkg srvAddr (fchk4 srvAddr) w in
  match r with
  | Ret (Err err) => (Ret (NATTypeError, Some err), c, w)
  | Ret (Ok None) => (Ret (NATTypePortRestricted, None), c, w)
  | Ret (Ok (Some reply)) => (Ret (NATTypeRestricted, None), c, w)
  | Panic => (Panic, c, w)
  | OutOfFuel => (OutOfFuel, c, w)
  end.

Section Probes.

(** The [String] method of Go's [net.UDPAddr], which also prints the nil
    pointer. *)
Variable UDPAddr_String : option UDPAddr -> string.

Definition fchk2 : chkfun := fun cli pkg =>
  if String.eqb (UDPAddr_String (nChangedAddr cli))
                (UDPAddr_String (orgHost pkg))
  then Ret true else Ret false.

Definition doTest2 (srvAddr : option UDPAddr) (c : Client) (w : World)
    : probe_result :=
  let (pkg, w) := buildBindingRequest true true w in
  let (r, w) := fsmSendPackageWaitReply c pkg srvAddr fchk2 w in
  match r with
  | Ret (Err err) => (Ret (NATTypeError, Some err), c, w)
  | Ret (Ok reply) =>
      let hasPublicIP :=
        String.eqb (UDPAddr_String (nMappedAddr c))
                   (UDPAddr_String (nLocalAddr c)) in
      match reply with
      | None =>
          if hasPublicIP then (Ret (NATTypeSymmetricUDPFirewall, None), c, w)
          else (Ret (NATTypeUnknown, None), c, w)
      | Some _ =>
          if hasPublicIP then (Ret (NATTypeOpenInternet, None), c, w)
          else (Ret (NATTypeFullCone, None), c, w)
      end
  | Panic => (Panic, c, w)
  | OutOfFuel => (OutOfFuel, c, w)
  end.

Definition doTest3 (srvAddr : option UDPAddr) (c : Client) (w : World)
    : probe_result :=
  let (pkg, w) := buildBindingRequest false false w in
  let (r, w) := fsmSendPackageWaitReply c pkg srvAddr fchk3 w in
  match r with
  | Ret (Err err) => (Ret (NATTypeError, Some err), c, w)
  | Ret (Ok None) =>
      (Ret (NATTypeError, Some (errors_New "the CHANGED server had NO answer")),
       c, w)
  | Ret (Ok (Some reply)) =>
      match getMappedAddr reply with
      | Ret nmapAddr =>
          if negb (String.eqb (UDPAddr_String nmapAddr)
                              (UDPAddr_String (nMappedAddr c)))
          then (Ret (NATTypeSymmetric, None), c, w)
          else (Ret (NATTypeUnknown, None), c, w)
      | Panic => (Panic, c, w)
      | OutOfFuel => (OutOfFuel, c, w)
      end
  | Panic => (Panic, c, w)
  | OutOfFuel => (OutOfFuel, c, w)
  end.

(** [err != nil || nattyp != NATTypeUnknown] *)
Definition terminal (r : NATType * option error) : bool :=
  match r with
  | (NATTypeUnknown, None) => false
  | _ => true
  end.

Definition doDetect (c : Client) (w : World) : probe_result :=
  match doTest1 (nSrvAddr c) c w with
  | (Ret r, c, w) =>
      if terminal r then (Ret r, c, w) else
      match doTest2 (nSrvAddr c) c w with
      | (Ret r, c, w) =>
          if terminal r then (Ret r, c, w) else
          match doTest3 (nChangedAddr c) c w with
          | (Ret r, c, w) =>
              if terminal r then (Ret r, c, w) else doTest4 (nSrvAddr c) c w
          | stop => stop
          end
      | stop => stop
      end
  | stop => stop
  end.

End Probes.

(** A fresh packet of type [t] and transaction id [tid]. *)
Definition new_message (t : Z) (tid : list byte) : packet :=
  {| p_types := t; p_length := 0; transID := tid; attributes := [];
     orgHost := None |}.

(** * Vocabulary of the statements

    Names for the values and the conditions the properties below speak of;
    none of them is part of the program. *)

(** The packet of a successful parse (and an empty one otherwise). *)
Definition the_packet (r : exec (res packet)) : packet :=
  match r with
  | Ret (Ok p) => p
  | _ => new_message 0 []
  end.

(** The big-endian 16-bit field at offset [pos] of a buffer. *)
Definition u16_at (data : list byte) (pos : Z) : Z :=
  256 * Z_of_byte (nth (Z.to_nat pos) data x00)
  + Z_of_byte (nth (Z.to_nat pos + 1) data x00).

(** The three errors of [parsePackage]. *)
Definition format_mismatch : exec (res packet) :=
  Ret (Err (errors_New "received data format mismatch")).

Definition too_short : exec (res packet) :=
  Ret (Err (errors_New "received data length too short")).

Definition too_long : exec (res packet) :=
  Ret (Err (errors_New "received data length too long")).

(** The packet [parsePackage] starts from: the header fields. *)
Definition header_packet (data : list byte) : packet :=
  {| p_types := u16_at data 0; p_length := u16_at data 2;
     transID := firstn 16 (skipn 4 data); attributes := []; orgHost := None |}.

(** A twenty-byte header with no attribute behind it. *)
Definition empty_header : list byte := hex
  [0x01; 0x01; 0x00; 0x00; 0xa2; 0x40; 0x02; 0x27; 0; 1; 2; 3; 4; 5; 6; 7;
   8; 9; 10; 11].

(** The sum over the attributes of [4 + align length]. *)
Definition attributes_size (attrs : list attribute) : Z :=
  fold_right (fun a acc => 4 + align (a_length a) + acc) 0 attrs.

(** A reply whose MAPPED-ADDRESS attribute has an empty value, followed by
    a CHANGED-ADDRESS attribute. *)
Definition empty_mapped_reply : list byte :=
  empty_header ++ hex [0x00; 0x01; 0x00; 0x00;
                       0x00; 0x05; 0x00; 0x04; 0; 0; 0; 0].

(** What [serialize] appends for one attribute. *)
Definition encode_attr (a : attribute) : list byte :=
  PutUint16 (a_types a) ++ PutUint16 (a_length a) ++ a_value a.

(** An attribute as [newAttribute] makes them: the stored length is the
    length of the padded value. *)
Definition wf_attribute (a : attribute) : Prop :=
  0 <= a_types a < 65536
  /\ a_length a = len (a_value a)
  /\ len (a_value a) mod 4 = 0.

(** No attribute with an empty value at the very end of the list. *)
Fixpoint last_nonempty (attrs : list attribute) : Prop :=
  match attrs with
  | [] => True
  | a :: rest =>
      match rest with
      | [] => a_value a <> []
      | _ :: _ => last_nonempty rest
      end
  end.

(** A message as the client builds one: [new_message t tid], to which
    [newAttribute (fst s) (snd s)] is added for every [s] of [specs], in
    order. *)
Definition build_message (t : Z) (tid : list byte)
    (specs : list (Z * list byte)) : packet :=
  fold_left (fun p s => addAttribute p (newAttribute (fst s) (snd s)))
    specs (new_message t tid).

(** The attributes of [build_message]. *)
Definition spec_attrs (specs : list (Z * list byte)) : list attribute :=
  map (fun s => newAttribute (fst s) (snd s)) specs.

(** What the length field holds beyond the attributes, in 16 bits. *)
Definition length_excess (p : packet) : Z :=
  wrap16 (p_length p - attributes_size (attributes p)).

(** The next [WriteTo] sends the whole request. *)
Definition first_write_ok (b : list byte) (w : World) : Prop :=
  match write_q w with
  | [] | WriteAll :: _ => True
  | WriteN n :: _ => n = len b
  | WriteErr _ :: _ => False
  end.

(** The next [SetReadDeadline] succeeds. *)
Definition first_deadline_ok (w : World) : Prop :=
  match deadline_q w with
  | [] | None :: _ => True
  | Some _ :: _ => False
  end.

(** The world once the request is sent and the deadline set. *)
Definition after_send (b : list byte) (addr : option UDPAddr) (ms : Z)
    (w : World) : World :=
  snd (SetReadDeadline ms (snd (WriteTo b addr w))).

(** [if timeout < maxTimeoutMs { timeout *= 2 }] *)
Definition next_timeout (timeout : Z) : Z :=
  if timeout <? maxTimeoutMs then timeout * 2 else timeout.

(** A write that sends the whole request [b]. *)
Definition write_ok (b : list byte) (r : write_result) : Prop :=
  match r with
  | WriteAll => True
  | WriteN n => n = len b
  | WriteErr _ => False
  end.

(** What a read may deliver without ending the operation: a timeout, or a
    datagram the listen loop skips. *)
Definition rejected (c : Client) (rqst : packet) (fchk : chkfun)
    (r : read_result) : Prop :=
  match r with
  | ReadErr e => is_timeout e = true
  | ReadData data peerAddr =>
      exists p, parsePackage (firstn maxPacketSize data) = Ret (Ok p)
                /\ (transID p <> transID rqst
                    \/ fchk c (set_orgHost p (Some peerAddr)) = Ret false)
  end.

(** A world in which no reply is ever accepted and the transport never
    fails: every write goes through, every deadline is set, and every read
    is a timeout or a datagram that is skipped. *)
Definition no_reply_world (c : Client) (rqst : packet) (fchk : chkfun)
    (w : World) : Prop :=
  Forall (write_ok (serialize rqst)) (write_q w)
  /\ Forall (fun r => r = None) (deadline_q w)
  /\ Forall (rejected c rqst fchk) (read_q w).

(** The deadlines of [n] attempts in a row, the first one being [timeout]. *)
Fixpoint schedule (n : nat) (timeout : Z) : list Z :=
  match n with
  | O => []
  | S n' => timeout :: schedule n' (next_timeout timeout)
  end.

(** A stand-in for the [String] method in closed examples: the raw bytes of
    the address and of the port, and Go's text for the nil pointer. *)
Definition raw_String (a : option UDPAddr) : string :=
  match a with
  | None => "<nil>"%string
  | Some u => string_of_list_byte (IP u ++ PutUint16 (Port u))
  end.

(** The driver as the spec words it: run the probes in their order and stop
    at the first one that panics or returns an error or a classification
    other than Unknown. *)
Fixpoint run_probes (probes : list (Client -> World -> probe_result))
    (c : Client) (w : World) : probe_result :=
  match probes with
  | [] => (Ret (NATTypeUnknown, None), c, w)
  | probe :: rest =>
      match probe c w with
      | (Ret r, c', w') =>
          if terminal r then (Ret r, c', w') else run_probes rest c' w'
      | stop => stop
      end
  end.

(** A run behind a symmetric UDP firewall: the host has the public address
    154.89.5.1:46425; Test1 is answered by the reply of the parser test
    (whose transaction id the random source is scripted to draw), and
    nothing answers Test2. *)
Definition demo_server : UDPAddr :=
  {| IP := hex [216; 93; 246; 18]; Port := 3478; Zone := EmptyString |}.

Definition demo_client : Client :=
  {| nLocalAddr := Some {| IP := hex [154; 89; 5; 1]; Port := 46425;
                           Zone := EmptyString |};
     nSrvAddr := Some demo_server;
     nChangedAddr := None;
     nMappedAddr := None |}.

Definition demo_world : World :=
  {| rand_q := [Ok (hex [0xa6; 0xb0; 0x9f; 0x59; 0x70; 0xb5; 0xf0; 0x49;
                         0x6e; 0x30; 0xc2; 0x77])];
     write_q := []; deadline_q := [];
     read_q := [ReadData sample_reply demo_server];
     sent := []; deadlines := [] |}.

(** A world in which the request of Test1 draws the transaction id of
    [empty_mapped_reply] and the server answers with that datagram. *)
Definition empty_mapped_world : World :=
  {| rand_q := [Ok (hex [0; 1; 2; 3; 4; 5; 6; 7; 8; 9; 10; 11])];
     write_q := []; deadline_q := [];
     read_q := [ReadData empty_mapped_reply demo_server];
     sent := []; deadlines := [] |}.

Definition demo_test1 : probe_result :=
  doTest1 (nSrvAddr demo_client) demo_client demo_world.

Definition demo_c1 : Client := snd (fst demo_test1).

Definition demo_request2 : option packet * World :=
  buildBindingRequest true true (snd demo_test1).

Definition demo_engine2 : exec (res (option packet)) * World :=
  fsmSendPackageWaitReply demo_c1 (fst demo_request2) (nSrvAddr demo_c1)
    (fchk2 raw_String) (snd demo_request2).

(** * The rest of the package *)

(** ** const.go: the descriptions of the NAT types *)

Definition DefaultServerAddr : string := "stun.ekiga.net:3478".

(** [NATType] is an [int]; the constants are numbered by [iota]. *)
Definition NATType_code (t : NATType) : Z :=
  match t with
  | NATTypeUnknown => 0
  | NATTypeOpenInternet => 1
  | NATTypeFullCone => 2
  | NATTypeRestricted => 3
  | NATTypePortRestricted => 4
  | NATTypeSymmetricUDPFirewall => 5
  | NATTypeSymmetric => 6
  | NATTypeUdpBlocked => 7
  | NATTypeError => 8
  end.

(** The map [natTypeDescription], its entries in the order of the source. *)
Definition natTypeDescription : list (Z * string) :=
  [ (NATType_code NATTypeUnknown, "NAT type indeterminacy");
    (NATType_code NATTypeOpenInternet, "Open internet");
    (NATType_code NATTypeFullCone, "Full cone NAT");
    (NATType_code NATTypeRestricted, "Restricted NAT");
    (NATType_code NATTypePortRestricted, "Port restricted NAT");
    (NATType_code NATTypeSymmetric, "Symmetric NAT");
    (NATType_code NATTypeSymmetricUDPFirewall, "Symmetric UDP firewall");
    (NATType_code NATTypeUdpBlocked, "UDP blocked firewall");
    (NATType_code NATTypeError, "Detecting failed") ]%string.

(** [s, ok := m[k]] *)
Fixpoint map_lookup (m : list (Z * string)) (k : Z) : option string :=
  match m with
  | [] => None
  | (k', s) :: rest => if k' =? k then Some s else map_lookup rest k
  end.

(** The method [String] of [NATType], on any [int] value. *)
Definition NATType_String (nat : Z) : string :=
  match map_lookup natTypeDescription nat with
  | Some s => s
  | None => "Unknown"%string
  end.

(** ** client.go: the entry point *)

(** [NewClient]: a zeroed [Client]. *)
Definition NewClient : Client :=
  {| nLocalAddr := None; nSrvAddr := None; nChangedAddr := None;
     nMappedAddr := None |}.

(** What [Discovery] asks of Go's [net] package before the probes start.
    [DialUDP] answers with the local address of the connection it opened
    ([None] when [LocalAddr] returns nil); [ListenUDP] answers with its
    error, and the socket it opens is the one the [World] scripts. *)
Record Setup : Type := {
  ResolveUDPAddr : string -> res (option UDPAddr);
  DialUDP : UDPAddr -> res (option UDPAddr);
  ListenUDP : option UDPAddr -> option error
}.

Section Entry.

Variable UDPAddr_String : option UDPAddr -> string.
Variable env : Setup.

(** [Discovery].  Beside the result of the probes it returns what was
    written to the dialled connection, whose outcome the code ignores. *)
Definition Discovery (srvAddrStr : string) (c : Client) (w : World)
    : probe_result * list (list byte) :=
  let srvAddrStr :=
    if String.eqb srvAddrStr "" then DefaultServerAddr else srvAddrStr in
  match ResolveUDPAddr env srvAddrStr with
  | Err err => ((Ret (NATTypeError, Some err), c, w), [])
  | Ok None =>
      ((Ret (NATTypeError,
             Some (errors_New ("cat resolve STUN server:" ++ srvAddrStr))),
        c, w), [])
  | Ok (Some serverUDPAddr) =>
      match DialUDP env serverUDPAddr with
      | Err _ =>
          ((Ret (NATTypeError,
                 Some (errors_New
                         ("fail to connect to STUN server:" ++ srvAddrStr))),
            c, w), [])
      | Ok lcUdpAddr =>
          let (pkg, w) := buildBindingRequest false false w in
          match pkg with
          | None =>
              ((Ret (NATTypeError, Some (errors_New "runtime error")), c, w),
               [])
          | Some pkg =>
              let written := [serialize pkg] in
              match lcUdpAddr with
              | None =>
                  ((Ret (NATTypeError, Some (errors_New "runtime error")),
                    c, w), written)
              | Some lcUdpAddr =>
                  let c :=
                    {| nLocalAddr := Some lcUdpAddr;
                       nSrvAddr := Some serverUDPAddr;
                       nChangedAddr := nChangedAddr c;
                       nMappedAddr := nMappedAddr c |} in
                  match ListenUDP env (nLocalAddr c) with
                  | Some err => ((Ret (NATTypeError, Some err), c, w), written)
                  | None => (doDetect UDPAddr_String c w, written)
                  end
              end
          end
      end
  end.

End Entry.

(** ** Vocabulary of the further statements *)

(** The deadlines of the nine attempts. *)
Definition deadline_schedule : list Z :=
  [100; 200; 400; 800; 1600; 1600; 1600; 1600; 1600].

(** The timeouts among the answers of a script of reads. *)
Fixpoint count_timeouts (rq : list read_result) : nat :=
  match rq with
  | [] => O
  | ReadErr e :: rest =>
      if is_timeout e then S (count_timeouts rest) else count_timeouts rest
  | ReadData _ _ :: rest => count_timeouts rest
  end.

(** The rest of an attempt once the request is out and the deadline set:
    listen on the reads [rq]; on a timeout, go on with [n] more attempts,
    the next deadline being [timeout]. *)
Definition attempt_tail (c : Client) (rqst : packet) (b : list byte)
    (addr : option UDPAddr) (fchk : chkfun) (n : nat) (timeout : Z)
    (w : World) (rq : list read_result)
    : exec (res (option packet)) * World :=
  match listen c rqst fchk rq with
  | (Some r, rq') => (r, set_read_q w rq')
  | (None, rq') => retransmit n c rqst b addr fchk timeout (set_read_q w rq')
  end.

(** The verdicts a completed discovery can return without an error. *)
Definition is_classification (t : NATType) : bool :=
  match t with
  | NATTypeUnknown | NATTypeError => false
  | _ => true
  end.

(** Two packets that differ at most in their length field. *)
Definition same_but_length (p p' : packet) : Prop :=
  p_types p = p_types p' /\ transID p = transID p'
  /\ attributes p = attributes p' /\ orgHost p = orgHost p'.

(** The value of the CHANGE-REQUEST attribute for the two flags. *)
Definition change_flags (changeIP changePort : bool) : Z :=
  (if changeIP then 4 else 0) + (if changePort then 2 else 0).

(** The packet of an accepted reply (and an empty one otherwise). *)
Definition the_reply (r : exec (res (option packet))) : packet :=
  match r with
  | Ret (Ok (Some p)) => p
  | _ => new_message 0 []
  end.

(** A request carrying the transaction id of [sample_reply], and a world
    in which that reply is the first datagram to arrive. *)
Definition sample_request : packet :=
  new_message msgTypeBindingRequest (firstn 16 (skipn 4 sample_reply)).

Definition sample_world : World :=
  {| rand_q := []; write_q := []; deadline_q := [];
     read_q := [ReadData sample_reply demo_server];
     sent := []; deadlines := [] |}.

(** The timeout error of a read whose deadline has passed. *)
Definition read_timeout : read_result :=
  ReadErr (net_Error true "i/o timeout").

(** A world with [n] silent listening windows before the sample reply. *)
Definition delayed_world (n : nat) : World :=
  {| rand_q := []; write_q := []; deadline_q := [];
     read_q := repeat read_timeout n ++ [ReadData sample_reply demo_server];
     sent := []; deadlines := [] |}.

(** A verdict in the form [doDetect] may return it: the type is
    [NATTypeError] exactly when there is an error. *)
Definition error_iff_NATTypeError (r : exec (NATType * option error)) : Prop :=
  match r with
  | Ret (t, Some _) => t = NATTypeError
  | Ret (t, None) => t <> NATTypeError
  | _ => True
  end.

(** The same, and without error the type is a classification. *)
Definition final_verdict (r : exec (NATType * option error)) : Prop :=
  match r with
  | Ret (t, Some _) => t = NATTypeError
  | Ret (t, None) => is_classification t = true
  | _ => True
  end.

(** A world in which nothing ever answers. *)
Definition silent_world : World :=
  {| rand_q := []; write_q := []; deadline_q := []; read_q := [];
     sent := []; deadlines := [] |}.

(** The request [buildBindingRequest] returned (and an empty one for the
    nil packet). *)
Definition the_request (r : option packet * World) : packet :=
  match fst r with
  | Some p => p
  | None => new_message 0 []
  end.

(** A Binding Response with the transaction id a request gets from a
    random source that delivers zeros, and a world in which it answers
    Test4 from port 3479 of the server. *)
Definition zero_id_reply : list byte := hex
  [0x01; 0x01; 0x00; 0x00; 0xa2; 0x40; 0x02; 0x27; 0; 0; 0; 0; 0; 0; 0; 0;
   0; 0; 0; 0].

Definition other_port : UDPAddr :=
  {| IP := hex [216; 93; 246; 18]; Port := 3479; Zone := EmptyString |}.

Definition restricted_world : World :=
  {| rand_q := []; write_q := []; deadline_q := [];
     read_q := [ReadData zero_id_reply other_port];
     sent := []; deadlines := [] |}.

(** A setup in which everything works: any name resolves to the demo
    server and the local address is the one of the demo client. *)
Definition demo_setup : Setup :=
  {| ResolveUDPAddr := fun _ => Ok (Some demo_server);
     DialUDP := fun _ => Ok (nLocalAddr demo_client);
     ListenUDP := fun _ => None |}.

(** * Properties *)

(** Closed goals over concrete packets are settled by evaluation. *)
Ltac crunch :=
  vm_compute;
  first [ reflexivity | discriminate | split; crunch ].

(** A conjunction of closed equations, each settled by evaluation. *)
Ltac eval_each :=
  repeat match goal with |- _ /\ _ => split end;
  vm_compute; reflexivity.

(** ** Bytes and 16-bit integers *)

Lemma Z_of_byte_range (b : byte) : 0 <= Z_of_byte b < 256.
Proof.
  unfold Z_of_byte. pose proof (Byte.to_N_bounded b). lia.
Qed.

Lemma byte_of_Z_of_byte (b : byte) : byte_of_Z (Z_of_byte b) = b.
Proof.
  unfold byte_of_Z. rewrite Z.mod_small by apply Z_of_byte_range.
  unfold Z_of_byte. now rewrite N2Z.id, Byte.of_to_N.
Qed.

Lemma Z_of_byte_of_Z (z : Z) : Z_of_byte (byte_of_Z z) = z mod 256.
Proof.
  unfold byte_of_Z, Z_of_byte.
  pose proof (Z.mod_pos_bound z 256 eq_refl) as Hb.
  destruct (Byte.of_N _) eqn:E.
  - apply Byte.to_of_N in E. rewrite E. apply Z2N.id. lia.
  - apply Byte.of_N_None_iff in E. lia.
Qed.

Lemma wrap16_small (z : Z) : 0 <= z < 65536 -> wrap16 z = z.
Proof. apply Z.mod_small. Qed.

Lemma wrap16_range (z : Z) : 0 <= wrap16 z < 65536.
Proof. apply Z.mod_pos_bound. lia. Qed.

Lemma wrap16_over (z : Z) : 65536 <= z < 131072 -> wrap16 z = z - 65536.
Proof.
  intros H. unfold wrap16.
  rewrite <- (Z.mod_add z (-1) 65536) by lia. apply Z.mod_small. lia.
Qed.

Lemma lor_shiftl8 (x y : Z) :
  0 <= x < 256 -> Z.lor x (Z.shiftl y 8) = 256 * y + x.
Proof.
  intros Hx.
  assert (Hland : Z.land x (Z.shiftl y 8) = 0).
  { apply Z.bits_inj'. intros n Hn.
    rewrite Z.land_spec, Z.bits_0.
    destruct (Z.ltb_spec n 8).
    - rewrite Z.shiftl_spec_low by lia. apply andb_false_r.
    - rewrite <- (Z.mod_small x (2 ^ 8)) by (change (2 ^ 8) with 256; lia).
      rewrite Z.mod_pow2_bits_high by lia. reflexivity. }
  rewrite <- Z.lxor_lor, <- Z.add_nocarry_lxor by assumption.
  rewrite Z.shiftl_mul_pow2 by lia. change (2 ^ 8) with 256. lia.
Qed.

Lemma be16_value (v : Z) :
  0 <= v < 65536 ->
  256 * Z_of_byte (byte_of_Z (Z.shiftr v 8)) + Z_of_byte (byte_of_Z v) = v.
Proof.
  intros Hv. rewrite !Z_of_byte_of_Z, Z.shiftr_div_pow2 by lia.
  change (2 ^ 8) with 256.
  rewrite (Z.mod_small (v / 256)).
  - rewrite <- Z.div_mod by lia. reflexivity.
  - split; [apply Z.div_pos; lia | apply Z.div_lt_upper_bound; lia].
Qed.

Lemma Uint16_cons (b0 b1 : byte) (rest : list byte) :
  Uint16 (b0 :: b1 :: rest) = Ret (256 * Z_of_byte b0 + Z_of_byte b1).
Proof.
  cbn [Uint16]. now rewrite lor_shiftl8 by apply Z_of_byte_range.
Qed.

Lemma Uint16_PutUint16 (v : Z) (rest : list byte) :
  0 <= v < 65536 -> Uint16 (PutUint16 v ++ rest) = Ret v.
Proof.
  intros Hv. unfold PutUint16. cbn [app].
  now rewrite Uint16_cons, be16_value.
Qed.

(** ** Slices *)

Lemma slice_ok {A : Type} (s : list A) (lo hi : Z) :
  0 <= lo <= hi -> hi <= len s ->
  slice s lo hi = Ret (firstn (Z.to_nat (hi - lo)) (skipn (Z.to_nat lo) s)).
Proof.
  intros H1 H2. unfold slice.
  replace (0 <=? lo) with true by (symmetry; apply Z.leb_le; lia).
  replace (lo <=? hi) with true by (symmetry; apply Z.leb_le; lia).
  replace (hi <=? len s) with true by (symmetry; apply Z.leb_le; lia).
  reflexivity.
Qed.

(** ** [align] and [padding] *)

Lemma align_small (n : Z) :
  0 <= n <= 65532 -> align n = 4 * ((n + 3) / 4).
Proof.
  intros H. unfold align. apply wrap16_small.
  pose proof (Z.div_mod (n + 3) 4 ltac:(lia)).
  pose proof (Z.mod_pos_bound (n + 3) 4 ltac:(lia)). lia.
Qed.

Lemma align_bounds (n : Z) :
  0 <= n <= 65532 -> n <= align n <= n + 3 /\ align n mod 4 = 0.
Proof.
  intros H. rewrite align_small by assumption.
  pose proof (Z.div_mod (n + 3) 4 ltac:(lia)).
  pose proof (Z.mod_pos_bound (n + 3) 4 ltac:(lia)).
  split; [lia |]. rewrite Z.mul_comm. apply Z.mod_mul. lia.
Qed.

Lemma align_multiple (n : Z) :
  0 <= n <= 65532 -> n mod 4 = 0 -> align n = n.
Proof.
  intros H Hm. rewrite align_small by assumption.
  pose proof (Z.div_mod n 4 ltac:(lia)) as Hd. rewrite Hm in Hd.
  replace (n + 3) with (n / 4 * 4 + 3) by lia.
  rewrite Z.div_add_l by lia. change (3 / 4) with 0. lia.
Qed.

Lemma padding_len (bs : list byte) :
  len (padding bs) = 4 * ((len bs + 3) / 4).
Proof.
  unfold padding, len. rewrite length_app, repeat_length.
  set (n := Z.of_nat (List.length bs)).
  assert (Hn : 0 <= n) by (unfold n; lia).
  pose proof (Z.div_mod n 4 ltac:(lia)).
  pose proof (Z.mod_pos_bound n 4 ltac:(lia)).
  pose proof (Z.mod_pos_bound (4 - n mod 4) 4 ltac:(lia)).
  rewrite Nat2Z.inj_add, Z2Nat.id by lia. fold n.
  assert (Hc : n mod 4 = 0 \/ 0 < n mod 4) by lia.
  destruct Hc as [Hc | Hc].
  - rewrite Hc. change ((4 - 0) mod 4) with 0.
    replace (n + 3) with (n / 4 * 4 + 3) by lia.
    rewrite Z.div_add_l by lia. change (3 / 4) with 0. lia.
  - rewrite (Z.mod_small (4 - n mod 4)) by lia.
    replace (n + 3) with ((n / 4 + 1) * 4 + (n mod 4 - 1)) by lia.
    rewrite Z.div_add_l by lia. rewrite (Z.div_small (n mod 4 - 1)) by lia. lia.
Qed.

Lemma padding_multiple (bs : list byte) :
  len bs mod 4 = 0 -> padding bs = bs.
Proof.
  intros H. unfold padding. rewrite H. cbn. apply app_nil_r.
Qed.

Lemma padding_mod4 (bs : list byte) : len (padding bs) mod 4 = 0.
Proof.
  rewrite padding_len, Z.mul_comm. apply Z.mod_mul. lia.
Qed.

(** The modelled [align] and [padding] pass the repository's [TestAlign]
    and [TestPadding]. *)
Example TestAlign :
  map align [1; 4; 5; 6; 7; 8; 65528; 65529; 65531; 65532]
  = [4; 4; 8; 8; 8; 8; 65528; 65532; 65532; 65532].
Proof.
  reflexivity.
Qed.

Example TestPadding : padding [x01; x02] = [x01; x02; x00; x00].
Proof.
  reflexivity.
Qed.

(** ** The attribute loop of [parsePackage] *)

Lemma u16_at_range (data : list byte) (pos : Z) : 0 <= u16_at data pos < 65536.
Proof.
  unfold u16_at.
  pose proof (Z_of_byte_range (nth (Z.to_nat pos) data x00)).
  pose proof (Z_of_byte_range (nth (Z.to_nat pos + 1) data x00)). lia.
Qed.

Lemma skipn_nth_cons {A : Type} (d : A) (s : list A) (n : nat) :
  (n < List.length s)%nat -> skipn n s = nth n s d :: skipn (S n) s.
Proof.
  revert n. induction s as [| x s IH]; intros n Hn; cbn in Hn; [lia |].
  destruct n as [| n]; [reflexivity |].
  cbn [skipn nth]. apply IH. lia.
Qed.

Lemma read_u16_at (data : list byte) (pos : Z) :
  0 <= pos -> pos + 2 <= len data ->
  (tb <- slice data pos (pos + 2) ;; Uint16 tb) = Ret (u16_at data pos).
Proof.
  intros H1 H2. rewrite slice_ok by lia.
  replace (pos + 2 - pos) with 2 by lia. cbn [bind].
  unfold len in H2.
  rewrite (skipn_nth_cons x00 data (Z.to_nat pos)) by lia.
  rewrite (skipn_nth_cons x00 data (S (Z.to_nat pos))) by lia.
  change (Z.to_nat 2) with 2%nat. cbn [firstn].
  rewrite Uint16_cons. unfold u16_at.
  now replace (Z.to_nat pos + 1)%nat with (S (Z.to_nat pos)) by lia.
Qed.

(** One turn of the loop, when more than four bytes remain at [pos]: the
    turn fails when the unpadded end [pos + 4 + length] is beyond the
    buffer, and otherwise appends the attribute and moves on by
    [4 + align length]. *)
Lemma parseAttributes_step (fuel : nat) (data : list byte) (pos : Z)
    (pkt : packet) :
  len data <= 65532 -> 0 <= pos -> pos + 4 < len data ->
  parseAttributes (S fuel) data pos pkt =
    if len data <? pos + 4 + u16_at data (pos + 2) then format_mismatch
    else parseAttributes fuel data
           (pos + (4 + align (u16_at data (pos + 2))))
           (addAttribute pkt
              (newAttribute (u16_at data pos)
                 (firstn (Z.to_nat (u16_at data (pos + 2)))
                         (skipn (Z.to_nat (pos + 4)) data)))).
Proof.
  intros Hlen Hpos Hmore.
  cbn [parseAttributes].
  rewrite (wrap16_small (pos + 4)), (wrap16_small (pos + 2)),
    (wrap16_small (len data)) by lia.
  replace (pos + 4 <? len data) with true by (symmetry; apply Z.ltb_lt; lia).
  pose proof (read_u16_at data pos Hpos ltac:(lia)) as Ht.
  pose proof (read_u16_at data (pos + 2) ltac:(lia) ltac:(lia)) as Hl.
  replace (pos + 2 + 2) with (pos + 4) in Hl by lia.
  destruct (slice data pos (pos + 2)) as [tb | |]; try discriminate.
  cbn [bind] in Ht |- *. rewrite Ht. cbn [bind].
  destruct (slice data (pos + 2) (pos + 4)) as [lb | |]; try discriminate.
  cbn [bind] in Hl |- *. rewrite Hl. cbn [bind].
  set (length := u16_at data (pos + 2)).
  pose proof (u16_at_range data (pos + 2)) as Hr. fold length in Hr.
  destruct (Z.ltb_spec (len data) (pos + 4 + length)) as [Hbad | Hgood].
  - (* the declared value runs past the buffer *)
    assert (Hcase : pos + 4 + length < 65536 \/ 65536 <= pos + 4 + length)
      by lia.
    destruct Hcase as [Hc | Hc].
    + rewrite (wrap16_small (pos + 4 + length)) by lia.
      replace (pos + 4 + length >? len data) with true
        by (symmetry; apply Z.gtb_lt; lia).
      now rewrite orb_true_r.
    + rewrite (wrap16_over (pos + 4 + length)) by lia.
      replace (pos + 4 + length - 65536 <? pos + 4) with true
        by (symmetry; apply Z.ltb_lt; lia).
      reflexivity.
  - rewrite (wrap16_small (pos + 4 + length)) by lia.
    replace (pos + 4 + length <? pos + 4) with false
      by (symmetry; apply Z.ltb_ge; lia).
    replace (pos + 4 + length >? len data) with false
      by (symmetry; rewrite Z.gtb_ltb; apply Z.ltb_ge; lia).
    cbn [orb]. rewrite slice_ok by lia. cbn [bind].
    replace (pos + 4 + length - (pos + 4)) with length by lia.
    pose proof (align_bounds length ltac:(lia)) as (Ha & _).
    rewrite (wrap16_small (align length + 4)) by lia.
    rewrite (wrap16_small (pos + (align length + 4))) by lia.
    now replace (pos + (align length + 4)) with (pos + (4 + align length))
      by lia.
Qed.

(** The loop ends as soon as fewer than five bytes remain. *)
Lemma parseAttributes_stop (fuel : nat) (data : list byte) (pos : Z)
    (pkt : packet) :
  len data <= 65532 -> 0 <= pos <= 65531 -> len data <= pos + 4 ->
  parseAttributes (S fuel) data pos pkt = Ret (Ok pkt).
Proof.
  intros Hlen Hpos Hend. cbn [parseAttributes].
  assert (0 <= len data) by (unfold len; lia).
  rewrite (wrap16_small (pos + 4)), (wrap16_small (len data)) by lia.
  now replace (pos + 4 <? len data) with false
    by (symmetry; apply Z.ltb_ge; lia).
Qed.

(** With one unit of fuel for every four bytes, the loop returns. *)
Lemma parseAttributes_returns (fuel : nat) :
  forall (data : list byte) (pos : Z) (pkt : packet),
  len data <= 65528 -> 0 <= pos <= len data + 3 ->
  len data + 3 - pos < 4 * Z.of_nat fuel ->
  exists r, parseAttributes fuel data pos pkt = Ret r.
Proof.
  induction fuel as [| fuel IH]; intros data pos pkt Hlen Hpos Hfuel.
  - lia.
  - destruct (Z.lt_ge_cases (pos + 4) (len data)) as [Hmore | Hend].
    + rewrite parseAttributes_step by lia.
      pose proof (u16_at_range data (pos + 2)) as Hr.
      destruct (Z.ltb_spec (len data) (pos + 4 + u16_at data (pos + 2))).
      * eexists. reflexivity.
      * pose proof (align_bounds (u16_at data (pos + 2)) ltac:(lia))
          as (Ha & _).
        apply IH; lia.
    + rewrite parseAttributes_stop by lia. eexists. reflexivity.
Qed.

(** ** [parsePackage] *)

Lemma len_skipn {A : Type} (s : list A) (n : nat) :
  Z.of_nat n <= len s -> len (skipn n s) = len s - Z.of_nat n.
Proof. unfold len. rewrite length_skipn. lia. Qed.

(** Past the two length checks, the header is read without a panic and the
    loop runs over the bytes that follow it. *)
Lemma parsePackage_body (data : list byte) :
  20 <= len data <= 65535 ->
  parsePackage data =
    parseAttributes (S (List.length (skipn 20 data))) (skipn 20 data) 0
      (header_packet data).
Proof.
  intros H. unfold parsePackage.
  replace (len data <? 20) with false by (symmetry; apply Z.ltb_ge; lia).
  replace (len data >? 65535) with false
    by (symmetry; rewrite Z.gtb_ltb; apply Z.ltb_ge; lia).
  pose proof (read_u16_at data 0 ltac:(lia) ltac:(lia)) as Ht.
  pose proof (read_u16_at data 2 ltac:(lia) ltac:(lia)) as Hl.
  change (0 + 2) with 2 in Ht. change (2 + 2) with 4 in Hl.
  destruct (slice data 0 2) as [tb | |]; try discriminate.
  cbn [bind] in Ht |- *. rewrite Ht. cbn [bind].
  destruct (slice data 2 4) as [lb | |]; try discriminate.
  cbn [bind] in Hl |- *. rewrite Hl. cbn [bind].
  unfold slice_from. rewrite !slice_ok by lia. cbn [bind].
  rewrite (firstn_all2 (n := Z.to_nat (len data - 20))).
  - reflexivity.
  - unfold len in *. rewrite length_skipn. lia.
Qed.

(** C8.  [parsePackage] is total: whatever the bytes, it returns a packet
    or an error, and neither panics (no slice or index leaves the buffer)
    nor runs out of fuel; an input shorter than 20 bytes is refused as too
    short and one longer than 65535 bytes as too long. *)
Theorem parsePackage_total (data : list byte) :
  ((exists p, parsePackage data = Ret (Ok p))
   \/ (exists e, parsePackage data = Ret (Err e)))
  /\ (len data < 20 -> parsePackage data = too_short)
  /\ (65535 < len data -> parsePackage data = too_long).
Proof.
  assert (Hshort : len data < 20 -> parsePackage data = too_short).
  { intros Hs. unfold parsePackage.
    now replace (len data <? 20) with true by (symmetry; apply Z.ltb_lt; lia). }
  assert (Hlong : 65535 < len data -> parsePackage data = too_long).
  { intros Hl. unfold parsePackage.
    replace (len data <? 20) with false by (symmetry; apply Z.ltb_ge; lia).
    now replace (len data >? 65535) with true
      by (symmetry; apply Z.gtb_lt; lia). }
  split; [| split; assumption].
  assert (Hcase : len data < 20 \/ 65535 < len data \/ 20 <= len data <= 65535)
    by lia.
  destruct Hcase as [Hs | [Hl | Hmid]].
  - right. eexists. apply Hshort, Hs.
  - right. eexists. apply Hlong, Hl.
  - rewrite parsePackage_body by lia.
    assert (Hr : len (skipn 20 data) = len data - 20)
      by (apply len_skipn; lia).
    destruct (parseAttributes_returns
                (S (List.length (skipn 20 data))) (skipn 20 data) 0
                (header_packet data)) as ([p | e] & E).
    + lia.
    + unfold len in *; lia.
    + unfold len in *; lia.
    + left. now exists p.
    + right. now exists e.
Qed.

(** The shortest length the test [TestParseNoCrash] tries. *)
Lemma parsePackage_total_witness : parsePackage (repeat x00 18) = too_short.
Proof.
  apply (parsePackage_total (repeat x00 18)). vm_compute. reflexivity.
Defined.

(** The repository's [TestParsePackage]: the mapped address of the sample
    reply is 154.89.5.1:46425. *)
Example TestParsePackage :
  getMappedAddr (the_packet (parsePackage sample_reply))
  = Ret (Some {| IP := hex [154; 89; 5; 1]; Port := 46425;
                 Zone := EmptyString |}).
Proof. vm_compute. reflexivity. Qed.

(** C7, as the spec words it, fails: the attribute stream below declares a
    value of five bytes; [consumed = 4 + align 5 = 12] runs past the nine
    bytes of the stream, and yet the parser returns the attribute instead of
    a format error. *)
Lemma parse_unpadded_tail_accepted :
  let stream := hex [0x00; 0x01; 0x00; 0x05; 1; 2; 3; 4; 5] in
  len stream < 0 + (4 + align (u16_at stream 2))
  /\ exists p, parsePackage (empty_header ++ stream) = Ret (Ok p)
             /\ attributes p = [newAttribute 1 (hex [1; 2; 3; 4; 5])].
Proof.
  cbv zeta. split; [vm_compute; reflexivity |].
  exists (the_packet
            (parsePackage
               (empty_header
                  ++ hex [0x00; 0x01; 0x00; 0x05; 1; 2; 3; 4; 5]))).
  eval_each.
Qed.

(** C7, amended.  With [data] the attribute stream of a datagram (at most
    65515 bytes) and [pos] an offset in it: when more than four bytes remain
    at [pos], the parser reads the 2-byte type and the 2-byte declared
    length, fails with the format error exactly when the unpadded end
    [pos + 4 + length] is beyond the stream, and otherwise stores the
    attribute and advances by exactly [4 + align length]; when fewer than
    four bytes remain it decodes nothing more and returns the packet. *)
Theorem parseAttributes_turn (fuel : nat) (data : list byte) (pos : Z)
    (pkt : packet) :
  len data <= 65515 -> 0 <= pos <= len data + 3 ->
  let types := u16_at data pos in
  let length := u16_at data (pos + 2) in
  let value := firstn (Z.to_nat length) (skipn (Z.to_nat (pos + 4)) data) in
  (pos + 4 < len data -> len data < pos + 4 + length ->
     parseAttributes (S fuel) data pos pkt = format_mismatch)
  /\ (pos + 4 < len data -> pos + 4 + length <= len data ->
     parseAttributes (S fuel) data pos pkt =
       parseAttributes fuel data (pos + (4 + align length))
         (addAttribute pkt (newAttribute types value)))
  /\ (len data < pos + 4 ->
     parseAttributes (S fuel) data pos pkt = Ret (Ok pkt)).
Proof.
  intros Hlen Hpos types length value. repeat split.
  - intros Hmore Hbad. rewrite parseAttributes_step by lia.
    fold length. now replace (len data <? pos + 4 + length) with true
      by (symmetry; apply Z.ltb_lt; lia).
  - intros Hmore Hgood. rewrite parseAttributes_step by lia.
    fold length. now replace (len data <? pos + 4 + length) with false
      by (symmetry; apply Z.ltb_ge; lia).
  - intros Hend. apply parseAttributes_stop; lia.
Qed.

Lemma parseAttributes_turn_witness :
  let stream := hex [0x00; 0x01; 0x00; 0x05; 1; 2; 3; 4; 5] in
  let pkt := header_packet empty_header in
  parseAttributes 2 stream 0 pkt =
    parseAttributes 1 stream 12
      (addAttribute pkt (newAttribute 1 (hex [1; 2; 3; 4; 5]))).
Proof.
  cbv zeta.
  apply (parseAttributes_turn 1
           (hex [0x00; 0x01; 0x00; 0x05; 1; 2; 3; 4; 5]) 0
           (header_packet empty_header)); crunch.
Defined.

(** ** The length field *)

(** C6, at the reply of the repository's own parser test: the attributes of
    that datagram take 72 bytes, which is what its header declares, but the
    packet the parser returns has a length field of 144: [parsePackage]
    copies the declared length from the header and then [addAttribute] adds
    every attribute to it once more. *)
Theorem parsePackage_length_doubled :
  u16_at sample_reply 2 = 72
  /\ exists p, parsePackage sample_reply = Ret (Ok p)
             /\ attributes_size (attributes p) = 72
             /\ p_length p = 144.
Proof.
  split; [vm_compute; reflexivity |].
  exists (the_packet (parsePackage sample_reply)). eval_each.
Qed.

(** ** Address attributes *)

(** C9, at a datagram the parser accepts: the MAPPED-ADDRESS attribute is
    there with an empty value, and the accessor panics on it (the slice
    expression [value[4:length]] of [commAddr] is [value[4:0]]) where the
    claim has it return none.  A server answering Test1 with this datagram
    crashes the client: the acceptance check of [doTest1] calls the
    accessor. *)
Theorem getMappedAddr_panics_on_empty_value :
  (exists p, parsePackage empty_mapped_reply = Ret (Ok p)
             /\ attributes p =
                  [ {| a_types := 1; a_length := 0; a_value := [] |};
                    {| a_types := 5; a_length := 4;
                       a_value := [x00; x00; x00; x00] |} ]
             /\ getMappedAddr p = Panic
             /\ findAttrAddr p attributeMappedAddress = Panic)
  /\ fst (fst (doTest1 (Some demo_server) demo_client empty_mapped_world))
     = Panic.
Proof.
  split.
  - exists (the_packet (parsePackage empty_mapped_reply)). eval_each.
  - vm_compute. reflexivity.
Qed.

(** Where the accessor does answer: the first attribute of the type
    decides, and it decodes whenever its value holds the four-byte address
    header. *)
Lemma findAttrAddr_absent (attrs : list attribute) (t : Z) :
  Forall (fun a => a_types a <> t) attrs ->
  findAttrAddr_loop attrs t = Ret None.
Proof.
  induction 1 as [| a attrs Ha _ IH]; cbn [findAttrAddr_loop].
  - reflexivity.
  - apply Z.eqb_neq in Ha. now rewrite Ha.
Qed.

Lemma findAttrAddr_first (pre : list attribute) (a : attribute)
    (post : list attribute) :
  Forall (fun b => a_types b <> a_types a) pre ->
  findAttrAddr_loop (pre ++ a :: post) (a_types a)
  = (addr <- commAddr a ;; Ret (Some addr)).
Proof.
  induction 1 as [| b pre Hb _ IH]; cbn [app findAttrAddr_loop].
  - now rewrite Z.eqb_refl.
  - apply Z.eqb_neq in Hb. now rewrite Hb.
Qed.

Lemma commAddr_decodes (a : attribute) :
  a_length a = len (a_value a) -> 4 <= a_length a ->
  commAddr a = Ret {| IP := skipn 4 (a_value a);
                      Port := u16_at (a_value a) 2;
                      Zone := EmptyString |}.
Proof.
  intros Hl H4. unfold commAddr.
  pose proof (read_u16_at (a_value a) 2 ltac:(lia) ltac:(lia)) as Hp.
  change (2 + 2) with 4 in Hp.
  destruct (slice (a_value a) 2 4) as [pb | |]; try discriminate.
  cbn [bind] in Hp |- *. rewrite Hp. cbn [bind].
  rewrite slice_ok by lia. cbn [bind]. rewrite Hl.
  rewrite firstn_all2; [reflexivity |].
  unfold len. rewrite length_skipn. lia.
Qed.

(** A stored length below four makes [value[4:length]] a slice expression
    whose low bound exceeds its high bound: the accessor panics whatever
    the bytes and the capacity of the value. *)
Lemma commAddr_short (a : attribute) : a_length a < 4 -> commAddr a = Panic.
Proof.
  intros H.
  assert (E : slice (a_value a) 4 (a_length a) = Panic).
  { unfold slice.
    replace (4 <=? a_length a) with false by (symmetry; apply Z.leb_gt; lia).
    now rewrite andb_false_r. }
  unfold commAddr. rewrite E. unfold slice.
  destruct ((0 <=? 2) && (2 <=? 4) && (4 <=? len (a_value a)));
    cbn [bind]; [| reflexivity].
  destruct (firstn _ _) as [| b0 [| b1 pb]]; reflexivity.
Qed.

(** ** [serialize] followed by [parsePackage] *)

Lemma serialize_flat (v : packet) :
  serialize v =
    PutUint16 (p_types v) ++ PutUint16 (p_length v) ++ transID v
      ++ flat_map encode_attr (attributes v).
Proof.
  unfold serialize.
  assert (H : forall attrs acc,
             fold_left
               (fun packetBytes a =>
                  ((packetBytes ++ PutUint16 (a_types a))
                     ++ PutUint16 (a_length a)) ++ a_value a) attrs acc
             = acc ++ flat_map encode_attr attrs).
  { induction attrs as [| a attrs IH]; intros acc; cbn [fold_left flat_map].
    - now rewrite app_nil_r.
    - rewrite IH. unfold encode_attr. now rewrite <- !app_assoc. }
  rewrite H. now rewrite <- !app_assoc.
Qed.

Lemma u16_at_app (pre : list byte) (v : Z) (rest : list byte) :
  0 <= v < 65536 -> u16_at (pre ++ PutUint16 v ++ rest) (len pre) = v.
Proof.
  intros Hv. unfold u16_at, len. rewrite Nat2Z.id.
  rewrite <- (Nat.add_0_r (List.length pre)) at 1.
  rewrite !app_nth2_plus. cbn [PutUint16 app nth]. now apply be16_value.
Qed.

Lemma len_app {A : Type} (s t : list A) : len (s ++ t) = len s + len t.
Proof. unfold len. rewrite length_app. lia. Qed.

Lemma len_nonneg {A : Type} (s : list A) : 0 <= len s.
Proof. unfold len. lia. Qed.

Lemma len_encode_attr (a : attribute) :
  len (encode_attr a) = 4 + len (a_value a).
Proof.
  unfold encode_attr. rewrite !len_app.
  change (len (PutUint16 (a_types a))) with 2.
  change (len (PutUint16 (a_length a))) with 2. lia.
Qed.

(** In a stream that holds the encoding of [a] at offset [len pre], the
    parser reads back the type, the length and the value of [a]. *)
Lemma read_encoded_attr (pre : list byte) (a : attribute) (tail : list byte) :
  wf_attribute a -> a_length a < 65536 ->
  let stream := pre ++ encode_attr a ++ tail in
  u16_at stream (len pre) = a_types a
  /\ u16_at stream (len pre + 2) = a_length a
  /\ firstn (Z.to_nat (a_length a)) (skipn (Z.to_nat (len pre + 4)) stream)
     = a_value a.
Proof.
  intros (Ht & Hl & Hm) Hlt stream. subst stream. unfold encode_attr.
  pose proof (len_nonneg (a_value a)) as Hv.
  repeat split.
  - rewrite <- !app_assoc. apply u16_at_app. exact Ht.
  - replace (len pre + 2) with (len (pre ++ PutUint16 (a_types a)))
      by (rewrite len_app; reflexivity).
    rewrite <- !app_assoc.
    rewrite (app_assoc pre (PutUint16 (a_types a))).
    apply u16_at_app. lia.
  - set (hd := pre ++ PutUint16 (a_types a) ++ PutUint16 (a_length a)).
    assert (E : pre ++ (PutUint16 (a_types a) ++ PutUint16 (a_length a)
                          ++ a_value a) ++ tail
                = hd ++ a_value a ++ tail)
      by (unfold hd; now rewrite <- !app_assoc).
    assert (En : Z.to_nat (len pre + 4) = (List.length hd + 0)%nat)
      by (unfold hd, len; rewrite !length_app; cbn; lia).
    rewrite E, En, skipn_app, skipn_all2, Nat.add_0_r, Nat.sub_diag by lia.
    cbn [skipn app].
    rewrite Hl. unfold len. rewrite Nat2Z.id.
    rewrite firstn_app, firstn_all, Nat.sub_diag. cbn [firstn].
    apply app_nil_r.
Qed.

Lemma newAttribute_wf (a : attribute) :
  wf_attribute a -> a_length a < 65536 ->
  newAttribute (a_types a) (a_value a) = a.
Proof.
  intros (Ht & Hl & Hm) Hlt. unfold newAttribute.
  rewrite padding_multiple by assumption.
  rewrite wrap16_small by (pose proof (len_nonneg (a_value a)); lia).
  rewrite <- Hl. now destruct a.
Qed.

Lemma last_nonempty_cons (a : attribute) (attrs : list attribute) :
  last_nonempty (a :: attrs) ->
  (attrs = [] /\ a_value a <> []) \/ (attrs <> [] /\ last_nonempty attrs).
Proof.
  destruct attrs as [| b attrs]; cbn [last_nonempty]; intros H.
  - left. auto.
  - right. split; [discriminate | exact H].
Qed.

Lemma len_flat_encode_ge (attrs : list attribute) :
  attrs <> [] -> 4 <= len (flat_map encode_attr attrs).
Proof.
  destruct attrs as [| a attrs]; [congruence |]. intros _.
  cbn [flat_map]. rewrite len_app, len_encode_attr.
  pose proof (len_nonneg (a_value a)).
  pose proof (len_nonneg (flat_map encode_attr attrs)). lia.
Qed.

Lemma len_flat_encode_cons (a : attribute) (attrs : list attribute) :
  len (flat_map encode_attr (a :: attrs))
  = 4 + len (a_value a) + len (flat_map encode_attr attrs).
Proof. cbn [flat_map]. rewrite len_app, len_encode_attr. lia. Qed.

(** The loop reads back, in order, the attributes [serialize] wrote. *)
Lemma parseAttributes_encoded (attrs : list attribute) :
  forall (fuel : nat) (pre : list byte) (pkt : packet),
  Forall wf_attribute attrs -> last_nonempty attrs ->
  len (pre ++ flat_map encode_attr attrs) <= 65515 ->
  (List.length attrs < fuel)%nat ->
  parseAttributes fuel (pre ++ flat_map encode_attr attrs) (len pre) pkt
  = Ret (Ok (fold_left addAttribute attrs pkt)).
Proof.
  induction attrs as [| a attrs IH]; intros fuel pre pkt Hwf Hlast Hlen Hfuel.
  - cbn [flat_map fold_left] in *. rewrite app_nil_r in *.
    destruct fuel as [| fuel]; [cbn in Hfuel; lia |].
    pose proof (len_nonneg pre).
    apply parseAttributes_stop; lia.
  - destruct fuel as [| fuel]; [cbn in Hfuel; lia |].
    inversion Hwf as [| ? ? Ha Hrest]; subst.
    pose proof Ha as (Ht & Hl & Hm).
    pose proof (len_nonneg pre) as Hpre.
    pose proof (len_nonneg (a_value a)) as Hv.
    pose proof (len_nonneg (flat_map encode_attr attrs)) as Htl.
    rewrite len_app, len_flat_encode_cons in Hlen.
    assert (Hlt : a_length a < 65536) by lia.
    assert (Hmore : 4 < 4 + len (a_value a)
                          + len (flat_map encode_attr attrs)).
    { destruct (last_nonempty_cons _ _ Hlast) as [(-> & Hne) | (Hne & _)].
      - destruct (a_value a); [congruence |].
        unfold len. cbn [List.length flat_map]. lia.
      - pose proof (len_flat_encode_ge attrs Hne). lia. }
    cbn [flat_map]. 
    destruct (read_encoded_attr pre a (flat_map encode_attr attrs) Ha Hlt)
      as (Rt & Rl & Rv).
    rewrite parseAttributes_step
      by (rewrite ?len_app, ?len_encode_attr; lia).
    rewrite Rt, Rl, Rv.
    replace (len (pre ++ encode_attr a ++ flat_map encode_attr attrs)
               <? len pre + 4 + a_length a) with false
      by (symmetry; apply Z.ltb_ge;
          rewrite !len_app, len_encode_attr; lia).
    rewrite newAttribute_wf by assumption.
    rewrite align_multiple by (rewrite Hl; solve [lia | exact Hm]).
    replace (len pre + (4 + a_length a)) with (len (pre ++ encode_attr a))
      by (rewrite len_app, len_encode_attr; lia).
    rewrite app_assoc. cbn [fold_left].
    apply IH.
    + exact Hrest.
    + destruct (last_nonempty_cons _ _ Hlast) as [(-> & _) | (_ & H)];
        [exact I | exact H].
    + rewrite !len_app, len_encode_attr. lia.
    + cbn in Hfuel. lia.
Qed.

Lemma addAttributes_fields (attrs : list attribute) :
  forall pkt,
  p_types (fold_left addAttribute attrs pkt) = p_types pkt
  /\ transID (fold_left addAttribute attrs pkt) = transID pkt
  /\ attributes (fold_left addAttribute attrs pkt) = attributes pkt ++ attrs.
Proof.
  induction attrs as [| a attrs IH]; intros pkt; cbn [fold_left].
  - now rewrite app_nil_r.
  - destruct (IH (addAttribute pkt a)) as (H1 & H2 & H3).
    rewrite H1, H2, H3. cbn. now rewrite <- app_assoc.
Qed.

Lemma build_message_fold (t : Z) (tid : list byte)
    (specs : list (Z * list byte)) :
  build_message t tid specs
  = fold_left addAttribute (spec_attrs specs) (new_message t tid).
Proof.
  unfold build_message, spec_attrs.
  generalize (new_message t tid).
  induction specs as [| s specs IH]; intros pkt; cbn [fold_left map].
  - reflexivity.
  - apply IH.
Qed.

Lemma len_value_le_flat (a : attribute) (attrs : list attribute) :
  In a attrs -> len (a_value a) <= len (flat_map encode_attr attrs).
Proof.
  induction attrs as [| b attrs IH]; intros Hin; [contradiction |].
  rewrite len_flat_encode_cons.
  pose proof (len_nonneg (a_value b)).
  pose proof (len_nonneg (flat_map encode_attr attrs)).
  destruct Hin as [-> | Hin]; [lia | specialize (IH Hin); lia].
Qed.

Lemma spec_attrs_wf (specs : list (Z * list byte)) :
  Forall (fun s => 0 <= fst s < 65536) specs ->
  len (flat_map encode_attr (spec_attrs specs)) <= 65535 ->
  Forall wf_attribute (spec_attrs specs).
Proof.
  intros Hty Hlen. apply Forall_forall. intros a Hin.
  pose proof (len_value_le_flat a _ Hin) as Hle.
  unfold spec_attrs in Hin. apply in_map_iff in Hin as (s & <- & Hs).
  rewrite Forall_forall in Hty. specialize (Hty s Hs).
  unfold wf_attribute, newAttribute in *. cbn [a_types a_length a_value] in *.
  pose proof (len_nonneg (padding (snd s))).
  repeat split; try lia.
  - apply wrap16_small. lia.
  - apply padding_mod4.
Qed.

Lemma padding_nonempty (bs : list byte) : bs <> [] -> padding bs <> [].
Proof.
  unfold padding. destruct bs; [congruence | discriminate].
Qed.

Lemma spec_attrs_last_nonempty (specs : list (Z * list byte)) :
  snd (last specs (0, [x00])) <> [] -> last_nonempty (spec_attrs specs).
Proof.
  induction specs as [| s specs IH]; [intros _; exact I |].
  destruct specs as [| s' specs].
  - cbn. apply padding_nonempty.
  - intros H. apply IH. exact H.
Qed.

(** C5, as the spec words it, fails twice: an attribute with an empty value
    at the end of the message is not parsed back, and a message whose
    serialized form exceeds 65535 bytes is refused by the parser. *)
Lemma roundtrip_fails :
  let tid := repeat x07 16 in
  (exists p, parsePackage (serialize (build_message 1 tid [(6, [])]))
             = Ret (Ok p)
             /\ attributes p = []
             /\ attributes (build_message 1 tid [(6, [])])
                = [ {| a_types := 6; a_length := 0; a_value := [] |} ])
  /\ parsePackage (serialize (build_message 1 tid [(6, repeat x00 (Z.to_nat 65512))]))
     = too_long.
Proof.
  cbv zeta. split.
  - exists (the_packet
              (parsePackage
                 (serialize (build_message 1 (repeat x07 16) [(6, [])])))).
    eval_each.
  - vm_compute. reflexivity.
Qed.

(** C5, amended.  For a message built from a type, a 16-byte transaction
    id and any number of attributes of arbitrary raw values, provided its
    serialized form has at most 65535 bytes and its last attribute, if there
    is one, has a non-empty value: parsing the serialized message returns a
    message with the same type, the same transaction id, the same attribute
    types in order and the same zero-padded values, each attribute's stored
    length being the length of its padded value. *)
Theorem serialize_parse_roundtrip (t : Z) (tid : list byte)
    (specs : list (Z * list byte)) :
  0 <= t < 65536 -> len tid = 16 ->
  Forall (fun s => 0 <= fst s < 65536) specs ->
  len (serialize (build_message t tid specs)) <= 65535 ->
  snd (last specs (0, [x00])) <> [] ->
  exists p,
    parsePackage (serialize (build_message t tid specs)) = Ret (Ok p)
    /\ p_types p = t
    /\ transID p = tid
    /\ map a_types (attributes p) = map fst specs
    /\ map a_value (attributes p) = map (fun s => padding (snd s)) specs
    /\ Forall (fun a => a_length a = len (a_value a)) (attributes p).
Proof.
  intros Ht Htid Hty Hlen Hlast.
  rewrite build_message_fold in *.
  set (m := fold_left addAttribute (spec_attrs specs) (new_message t tid))
    in *.
  destruct (addAttributes_fields (spec_attrs specs) (new_message t tid))
    as (Mt & Mid & Mattrs).
  fold m in Mt, Mid, Mattrs. cbn [new_message p_types transID attributes app]
    in Mt, Mid, Mattrs.
  rewrite serialize_flat, Mt, Mid, Mattrs in *.
  set (stream := flat_map encode_attr (spec_attrs specs)) in *.
  set (data := PutUint16 t ++ PutUint16 (p_length m) ++ tid ++ stream) in *.
  assert (Hdata : len data = 20 + len stream).
  { unfold data. rewrite !len_app, Htid.
    change (len (PutUint16 t)) with 2.
    change (len (PutUint16 (p_length m))) with 2. lia. }
  pose proof (len_nonneg stream) as Hs.
  assert (Hskip : skipn 20 data = stream).
  { unfold data. rewrite 2 app_assoc.
    replace 20%nat
      with (List.length ((PutUint16 t ++ PutUint16 (p_length m)) ++ tid) + 0)%nat
      by (rewrite !length_app; unfold len in Htid; cbn; lia).
    now rewrite skipn_app, skipn_all2, Nat.add_0_r, Nat.sub_diag by lia. }
  assert (Hwf : Forall wf_attribute (spec_attrs specs))
    by (apply spec_attrs_wf; [exact Hty | fold stream; lia]).
  rewrite parsePackage_body by lia. rewrite Hskip.
  pose proof (parseAttributes_encoded (spec_attrs specs)
                (S (List.length stream)) [] (header_packet data) Hwf
                (spec_attrs_last_nonempty specs Hlast)) as Hparse.
  cbn [app] in Hparse. fold stream in Hparse.
  change (len (@nil byte)) with 0 in Hparse.
  rewrite Hparse.
  - destruct (addAttributes_fields (spec_attrs specs) (header_packet data))
      as (Pt & Pid & Pattrs).
    eexists. split; [reflexivity |].
    rewrite Pt, Pid, Pattrs. cbn [header_packet p_types transID attributes app].
    repeat split.
    + unfold data. apply (u16_at_app [] t). exact Ht.
    + unfold data.
      cbn [PutUint16 app skipn].
      unfold len in Htid.
      replace 16%nat with (List.length tid + 0)%nat by lia.
      now rewrite firstn_app_2, app_nil_r.
    + unfold spec_attrs. rewrite map_map. reflexivity.
    + unfold spec_attrs. rewrite map_map. reflexivity.
    + eapply Forall_impl; [| exact Hwf]. intros a (_ & Hl & _). exact Hl.
  - lia.
  - (* one attribute takes at least four bytes of the stream *)
    assert (Hcount : forall attrs,
               4 * Z.of_nat (List.length attrs)
               <= len (flat_map encode_attr attrs)).
    { induction attrs as [| a attrs IH]; [cbn; lia |].
      rewrite len_flat_encode_cons. cbn [List.length].
      pose proof (len_nonneg (a_value a)). lia. }
    specialize (Hcount (spec_attrs specs)). fold stream in Hcount.
    unfold len in *. lia.
Qed.

Lemma serialize_parse_roundtrip_witness :
  exists p,
    parsePackage
      (serialize (build_message 1 (repeat x07 16)
                    [(3, [x00; x00; x00; x06]); (6, [x61])])) = Ret (Ok p)
    /\ p_types p = 1
    /\ transID p = repeat x07 16
    /\ map a_types (attributes p) = [3; 6]
    /\ map a_value (attributes p)
       = [[x00; x00; x00; x06]; [x61; x00; x00; x00]]
    /\ Forall (fun a => a_length a = len (a_value a)) (attributes p).
Proof.
  apply (serialize_parse_roundtrip 1 (repeat x07 16)
           [(3, [x00; x00; x00; x06]); (6, [x61])]).
  - lia.
  - reflexivity.
  - repeat constructor; cbn; lia.
  - vm_compute. discriminate.
  - cbn. discriminate.
Defined.

(** ** The length field of built and of parsed packets *)

Lemma attributes_size_app (l : list attribute) (a : attribute) :
  attributes_size (l ++ [a]) = attributes_size l + (4 + align (a_length a)).
Proof.
  unfold attributes_size. induction l as [| b l IH]; cbn [app fold_right].
  - lia.
  - rewrite IH. lia.
Qed.

(** A fresh packet has no attribute and a length field of zero. *)
Lemma newPacket_length (rnd : res (list byte)) (p : packet) :
  newPacket rnd = Ok p ->
  attributes p = [] /\ p_length p = attributes_size (attributes p).
Proof.
  destruct rnd as [bs | err]; cbn; [| discriminate].
  intros H. injection H as <-. split; reflexivity.
Qed.

(** [addAttribute] keeps the length field equal, in 16-bit arithmetic, to
    the sum over the attributes of [4 + align length]. *)
Lemma addAttribute_length (v : packet) (a : attribute) :
  p_length v = wrap16 (attributes_size (attributes v)) ->
  p_length (addAttribute v a)
  = wrap16 (attributes_size (attributes (addAttribute v a))).
Proof.
  intros H. cbn [addAttribute p_length attributes].
  rewrite attributes_size_app, H. unfold wrap16.
  rewrite Zplus_mod_idemp_l, Zplus_mod_idemp_r. f_equal. lia.
Qed.

Lemma build_message_length (t : Z) (tid : list byte)
    (specs : list (Z * list byte)) :
  p_length (build_message t tid specs)
  = wrap16 (attributes_size (attributes (build_message t tid specs))).
Proof.
  rewrite build_message_fold.
  assert (H : forall attrs pkt,
             p_length pkt = wrap16 (attributes_size (attributes pkt)) ->
             p_length (fold_left addAttribute attrs pkt)
             = wrap16 (attributes_size
                         (attributes (fold_left addAttribute attrs pkt)))).
  { induction attrs as [| a attrs IH]; intros pkt Hp; cbn [fold_left].
    - exact Hp.
    - apply IH, addAttribute_length, Hp. }
  apply H. reflexivity.
Qed.

Lemma addAttribute_excess (v : packet) (a : attribute) :
  length_excess (addAttribute v a) = length_excess v.
Proof.
  unfold length_excess. cbn [addAttribute p_length attributes].
  rewrite attributes_size_app. unfold wrap16.
  rewrite Zminus_mod_idemp_l.
  set (x := align (a_length a) + 4).
  replace (p_length v + x mod 65536
           - (attributes_size (attributes v) + (4 + align (a_length a))))
    with (p_length v - attributes_size (attributes v)
          - (4 + align (a_length a)) + x mod 65536) by lia.
  rewrite Zplus_mod_idemp_r. f_equal. unfold x. lia.
Qed.

Lemma parseAttributes_excess (fuel : nat) :
  forall (data : list byte) (pos : Z) (pkt p : packet),
  parseAttributes fuel data pos pkt = Ret (Ok p) ->
  length_excess p = length_excess pkt
  /\ (0 <= p_length pkt < 65536 -> 0 <= p_length p < 65536).
Proof.
  induction fuel as [| fuel IH]; intros data pos pkt p H;
    cbn [parseAttributes] in H; [discriminate |].
  destruct (wrap16 (pos + 4) <? wrap16 (len data));
    [| injection H as <-; split; auto].
  destruct (slice data pos (wrap16 (pos + 2))) as [tb | |];
    cbn [bind] in H; try discriminate.
  destruct (Uint16 tb) as [types | |]; cbn [bind] in H; try discriminate.
  destruct (slice data (wrap16 (pos + 2)) (wrap16 (pos + 4))) as [lb | |];
    cbn [bind] in H; try discriminate.
  destruct (Uint16 lb) as [length | |]; cbn [bind] in H; try discriminate.
  destruct (_ || _); [discriminate |].
  destruct (slice data (wrap16 (pos + 4)) _) as [value | |];
    cbn [bind] in H; try discriminate.
  apply IH in H as (H1 & H2). split.
  - rewrite H1. apply addAttribute_excess.
  - intros _. apply H2. cbn [addAttribute p_length]. apply wrap16_range.
Qed.

(** The packet the parser returns: its length field is the length the
    header declared plus, once more, the size of the attributes. *)
Lemma parsePackage_length (data : list byte) (p : packet) :
  parsePackage data = Ret (Ok p) ->
  p_length p = wrap16 (u16_at data 2 + attributes_size (attributes p)).
Proof.
  intros H.
  assert (Hlen : 20 <= len data <= 65535).
  { unfold parsePackage in H.
    destruct (Z.ltb_spec (len data) 20); [discriminate |].
    destruct (len data >? 65535) eqn:E; [discriminate |].
    rewrite Z.gtb_ltb in E. apply Z.ltb_ge in E. lia. }
  rewrite parsePackage_body in H by exact Hlen.
  apply parseAttributes_excess in H as (H & Hr).
  specialize (Hr (u16_at_range data 2)).
  unfold length_excess in H.
  cbn [header_packet p_length attributes attributes_size fold_right] in H.
  rewrite Z.sub_0_r, (wrap16_small (u16_at data 2)) in H
    by apply u16_at_range.
  rewrite <- H. unfold wrap16. rewrite Zplus_mod_idemp_l.
  replace (p_length p - attributes_size (attributes p)
           + attributes_size (attributes p)) with (p_length p) by lia.
  symmetry. apply Z.mod_small. exact Hr.
Qed.

(** ** The listen loop of [fsmSendPackageWaitReply] *)

Section Listen.

Variables (c : Client) (rqst : packet) (fchk : chkfun).
Variables (data : list byte) (peerAddr : UDPAddr) (rq : list read_result).

Lemma listen_skips_foreign_id (p : packet) :
  parsePackage (firstn maxPacketSize data) = Ret (Ok p) ->
  transID p <> transID rqst ->
  listen c rqst fchk (ReadData data peerAddr :: rq) = listen c rqst fchk rq.
Proof.
  intros Hp Hid. cbn [listen]. rewrite Hp. unfold bytes_Equal.
  destruct (list_eq_dec Byte.byte_eq_dec (transID rqst) (transID p));
    [congruence | reflexivity].
Qed.

Lemma listen_skips_refused (p : packet) :
  parsePackage (firstn maxPacketSize data) = Ret (Ok p) ->
  fchk c (set_orgHost p (Some peerAddr)) = Ret false ->
  listen c rqst fchk (ReadData data peerAddr :: rq) = listen c rqst fchk rq.
Proof.
  intros Hp Hchk. cbn [listen]. rewrite Hp.
  destruct (negb (bytes_Equal (transID rqst) (transID p))); [reflexivity |].
  now rewrite Hchk.
Qed.

Lemma listen_decode_error (e : error) :
  parsePackage (firstn maxPacketSize data) = Ret (Err e) ->
  listen c rqst fchk (ReadData data peerAddr :: rq) = (Some (Ret (Err e)), rq).
Proof.
  intros He. cbn [listen]. now rewrite He.
Qed.

End Listen.

(** C2, as the spec words it, fails: a datagram too short to decode arrives
    inside the first listening window, and the engine returns the decode
    error after a single send instead of discarding the datagram. *)
Lemma undecodable_datagram_aborts :
  let c := {| nLocalAddr := None; nSrvAddr := None; nChangedAddr := None;
              nMappedAddr := None |} in
  let peer := {| IP := [x01; x02; x03; x04]; Port := 3478;
                 Zone := EmptyString |} in
  let w := {| rand_q := []; write_q := []; deadline_q := [];
              read_q := [ReadData [x01; x01] peer];
              sent := []; deadlines := [] |} in
  let rqst := new_message msgTypeBindingRequest (repeat x07 16) in
  let run :=
    fsmSendPackageWaitReply c (Some rqst) (Some peer) (fun _ _ => Ret true) w
  in
  fst run = Ret (Err (errors_New "received data length too short"))
  /\ List.length (sent (snd run)) = 1%nat
  /\ deadlines (snd run) = [100].
Proof.
  cbv zeta. eval_each.
Qed.

(** C2, amended.  In the listen loop, a received datagram that decodes but
    carries another transaction id than the request's, and one that
    carries the right id but is refused by the acceptance predicate, are
    discarded: the loop goes on reading what arrives next in the same
    window, exactly as if the datagram had not come.  A datagram that
    fails to decode ends the loop: the operation returns the decode
    error. *)
Theorem listen_datagram (c : Client) (rqst : packet) (fchk : chkfun)
    (data : list byte) (peerAddr : UDPAddr) (rq : list read_result) :
  (forall p, parsePackage (firstn maxPacketSize data) = Ret (Ok p) ->
     transID p <> transID rqst ->
     listen c rqst fchk (ReadData data peerAddr :: rq)
     = listen c rqst fchk rq)
  /\ (forall p, parsePackage (firstn maxPacketSize data) = Ret (Ok p) ->
     fchk c (set_orgHost p (Some peerAddr)) = Ret false ->
     listen c rqst fchk (ReadData data peerAddr :: rq)
     = listen c rqst fchk rq)
  /\ (forall e, parsePackage (firstn maxPacketSize data) = Ret (Err e) ->
     listen c rqst fchk (ReadData data peerAddr :: rq)
     = (Some (Ret (Err e)), rq)).
Proof.
  split; [| split].
  - intros p. apply listen_skips_foreign_id.
  - intros p. apply listen_skips_refused.
  - intros e. apply listen_decode_error.
Qed.

Lemma listen_datagram_witness :
  let c := {| nLocalAddr := None; nSrvAddr := None; nChangedAddr := None;
              nMappedAddr := None |} in
  let peer := {| IP := [x01; x02; x03; x04]; Port := 3478;
                 Zone := EmptyString |} in
  let rqst := new_message msgTypeBindingRequest (repeat x07 16) in
  listen c rqst fchk1 [ReadData empty_header peer; ReadData [x01] peer]
  = listen c rqst fchk1 [ReadData [x01] peer].
Proof.
  cbv zeta.
  apply (proj1 (listen_datagram _ _ fchk1 empty_header _ _)
           (header_packet empty_header)).
  - vm_compute. reflexivity.
  - vm_compute. discriminate.
Defined.

(** ** The retransmission engine *)

(** One attempt whose send succeeds: the request goes out once, the deadline
    is set to [timeout], and the listen loop decides. *)
Lemma retransmit_turn (n : nat) (c : Client) (rqst : packet)
    (b : list byte) (addr : option UDPAddr) (fchk : chkfun) (timeout : Z)
    (w : World) :
  first_write_ok b w -> first_deadline_ok w ->
  retransmit (S n) c rqst b addr fchk timeout w =
    match listen c rqst fchk (read_q w) with
    | (Some r, rq) => (r, set_read_q (after_send b addr timeout w) rq)
    | (None, rq) =>
        retransmit n c rqst b addr fchk (next_timeout timeout)
          (set_read_q (after_send b addr timeout w) rq)
    end.
Proof.
  intros Hw Hd. unfold first_write_ok, first_deadline_ok in *.
  cbn [retransmit]. unfold WriteTo, SetReadDeadline, after_send.
  cbn [snd fst rand_q write_q deadline_q read_q sent deadlines].
  assert (Hwr : match write_q w with
                | [] | WriteAll :: _ => (len b, @None error)
                | WriteN n :: _ => (n, None)
                | WriteErr e :: _ => (0, Some e)
                end = (len b, None)).
  { destruct (write_q w) as [| [| k | e] q]; try reflexivity;
      [now subst | contradiction]. }
  rewrite Hwr. rewrite Z.eqb_refl. cbn [negb].
  assert (Hdl : match deadline_q w with
                | [] => None
                | r :: _ => r
                end = None).
  { destruct (deadline_q w) as [| [e |] q]; try reflexivity; contradiction. }
  rewrite Hdl. reflexivity.
Qed.




(** ** Nine attempts without an accepted reply *)

Lemma listen_rejected (c : Client) (rqst : packet) (fchk : chkfun)
    (rq : list read_result) :
  Forall (rejected c rqst fchk) rq ->
  exists rq', listen c rqst fchk rq = (None, rq')
              /\ Forall (rejected c rqst fchk) rq'.
Proof.
  induction rq as [| r rq IH]; intros H.
  - exists []. split; [reflexivity | constructor].
  - inversion H as [| ? ? Hr Hrq]; subst.
    destruct r as [data peerAddr | e].
    + destruct Hr as (p & Hp & [Hne | Hfalse]).
      * rewrite (listen_skips_foreign_id c rqst fchk data peerAddr rq p Hp Hne).
        apply IH, Hrq.
      * rewrite (listen_skips_refused c rqst fchk data peerAddr rq p Hp Hfalse).
        apply IH, Hrq.
    + cbn in Hr. exists rq. cbn [listen]. rewrite Hr. split; auto.
Qed.

Lemma retransmit_no_reply (c : Client) (rqst : packet)
    (addr : option UDPAddr) (fchk : chkfun) (n : nat) :
  forall (timeout : Z) (w : World),
  no_reply_world c rqst fchk w ->
  exists w',
    retransmit n c rqst (serialize rqst) addr fchk timeout w
    = (Ret (Ok None), w')
    /\ sent w' = sent w ++ repeat (serialize rqst, addr) n
    /\ deadlines w' = deadlines w ++ schedule n timeout.
Proof.
  induction n as [| n IH]; intros timeout w (Hw & Hd & Hr).
  - exists w. cbn. now rewrite !app_nil_r.
  - rewrite retransmit_turn.
    + destruct (listen_rejected c rqst fchk (read_q w) Hr) as (rq' & -> & Hr').
      destruct (IH (next_timeout timeout)
                  (set_read_q (after_send (serialize rqst) addr timeout w) rq'))
        as (w' & E & Hs & Hdl).
      * repeat split; cbn.
        -- destruct (write_q w); [constructor | now inversion Hw].
        -- destruct (deadline_q w); [constructor | now inversion Hd].
        -- exact Hr'.
      * exists w'. split; [exact E |]. rewrite Hs, Hdl. cbn.
        now rewrite <- !app_assoc.
    + unfold first_write_ok. destruct (write_q w) as [| r q]; [exact I |].
      inversion Hw as [| ? ? H1 _]; subst. destruct r; cbn in H1; auto.
    + unfold first_deadline_ok. destruct (deadline_q w) as [| r q]; [exact I |].
      inversion Hd as [| ? ? H1 _]; subst. exact I.
Qed.



(** ** A failing random source *)

(** C10.  When the random source fails while a probe builds its request,
    [buildBindingRequest] returns the nil packet and no error; each of
    [doTest1] to [doTest4] hands that nil packet to
    [fsmSendPackageWaitReply], whose first statement dereferences it: the
    probe panics instead of returning an error value, and nothing is
    sent. *)
Theorem rand_failure_panics (UDPAddr_String : option UDPAddr -> string)
    (srvAddr : option UDPAddr) (c : Client) (w : World) (err : error)
    (q : list (res (list byte))) :
  rand_q w = Err err :: q ->
  (forall changeIP changePort,
     fst (buildBindingRequest changeIP changePort w) = None)
  /\ (forall fchk w', fst (fsmSendPackageWaitReply c None srvAddr fchk w')
                      = Panic)
  /\ fst (fst (doTest1 srvAddr c w)) = Panic
  /\ fst (fst (doTest2 UDPAddr_String srvAddr c w)) = Panic
  /\ fst (fst (doTest3 UDPAddr_String srvAddr c w)) = Panic
  /\ fst (fst (doTest4 srvAddr c w)) = Panic
  /\ sent (snd (doTest1 srvAddr c w)) = sent w
  /\ sent (snd (doTest2 UDPAddr_String srvAddr c w)) = sent w
  /\ sent (snd (doTest3 UDPAddr_String srvAddr c w)) = sent w
  /\ sent (snd (doTest4 srvAddr c w)) = sent w.
Proof.
  intros Hq.
  assert (Hb : forall changeIP changePort,
             buildBindingRequest changeIP changePort w
             = (None,
                {| rand_q := q; write_q := write_q w;
                   deadline_q := deadline_q w; read_q := read_q w;
                   sent := sent w; deadlines := deadlines w |})).
  { intros changeIP changePort.
    unfold buildBindingRequest, rand_Read. rewrite Hq. reflexivity. }
  split; [intros; now rewrite Hb |].
  split; [reflexivity |].
  unfold doTest1, doTest2, doTest3, doTest4. rewrite !Hb.
  cbn. repeat split; reflexivity.
Qed.

Lemma rand_failure_panics_witness :
  let c := {| nLocalAddr := None; nSrvAddr := None; nChangedAddr := None;
              nMappedAddr := None |} in
  let w := {| rand_q := [Err (errors_New "unexpected EOF")]; write_q := [];
              deadline_q := []; read_q := []; sent := []; deadlines := [] |} in
  fst (fst (doTest1 None c w)) = Panic.
Proof.
  cbv zeta.
  refine (proj1 (proj2 (proj2
            (rand_failure_panics raw_String None _ _
               (errors_New "unexpected EOF") [] _)))).
  reflexivity.
Defined.

(** ** The driver *)

Lemma terminal_false (r : NATType * option error) :
  terminal r = false -> r = (NATTypeUnknown, None).
Proof.
  destruct r as [[] [e |]]; cbn; intros H; try discriminate; reflexivity.
Qed.

(** What Test1 leaves in the client when it ends without a verdict: the
    mapped and the changed address of the reply the engine accepted. *)
Lemma doTest1_records (srvAddr : option UDPAddr) (c c1 : Client)
    (w w1 : World) :
  doTest1 srvAddr c w = (Ret (NATTypeUnknown, None), c1, w1) ->
  exists pkg w0 reply,
    buildBindingRequest false false w = (pkg, w0)
    /\ fsmSendPackageWaitReply c pkg srvAddr fchk1 w0
       = (Ret (Ok (Some reply)), w1)
    /\ getMappedAddr reply = Ret (nMappedAddr c1)
    /\ getChangedAddr reply = Ret (nChangedAddr c1)
    /\ nLocalAddr c1 = nLocalAddr c
    /\ nSrvAddr c1 = nSrvAddr c.
Proof.
  unfold doTest1. intros H.
  destruct (buildBindingRequest false false w) as [pkg w0].
  destruct (fsmSendPackageWaitReply c pkg srvAddr fchk1 w0) as [r w'] eqn:Ef.
  destruct r as [[[reply |] | e] | |]; try discriminate.
  destruct (getMappedAddr reply) as [m | |] eqn:Em; try discriminate.
  destruct (getChangedAddr reply) as [ch | |] eqn:Ech; try discriminate.
  injection H as <- <-.
  exists pkg, w0, reply. cbn.
  split; [reflexivity |]. split; [exact Ef |].
  split; [exact Em |]. split; [exact Ech |]. split; reflexivity.
Qed.

(** Everything the engine sends is the request, sent to the address it was
    given, at most nine times. *)
Lemma retransmit_sent (c : Client) (rqst : packet) (b : list byte)
    (addr : option UDPAddr) (fchk : chkfun) (n : nat) :
  forall (timeout : Z) (w : World),
  exists k, (k <= n)%nat
    /\ sent (snd (retransmit n c rqst b addr fchk timeout w))
       = sent w ++ repeat (b, addr) k.
Proof.
  induction n as [| n IH]; intros timeout w.
  - exists 0%nat. cbn. now rewrite app_nil_r.
  - assert (Hone : forall w', sent w' = sent w ++ [(b, addr)] ->
               exists k, (k <= S n)%nat
                 /\ sent w' = sent w ++ repeat (b, addr) k).
    { intros w' E. exists 1%nat. split; [lia | exact E]. }
    cbn [retransmit]. unfold WriteTo, SetReadDeadline.
    destruct (match write_q w with
              | [] | WriteAll :: _ => (len b, @None error)
              | WriteN k :: _ => (k, None)
              | WriteErr e :: _ => (0, Some e)
              end) as [length err].
    destruct err as [err |]; [apply Hone; reflexivity |].
    destruct (negb (length =? len b)); [apply Hone; reflexivity |].
    cbn [deadline_q read_q].
    destruct (match deadline_q w with
              | [] => None
              | r :: _ => r
              end) as [err |]; [apply Hone; reflexivity |].
    destruct (listen c rqst fchk (read_q w)) as [[r |] rq];
      [apply Hone; reflexivity |].
    match goal with
    | |- context [retransmit n c rqst b addr fchk ?t ?w'] =>
        destruct (IH t w') as (k & Hk & E)
    end.
    exists (S k). split; [lia |]. rewrite E. cbn.
    now rewrite <- app_assoc.
Qed.

Lemma buildBindingRequest_sent (changeIP changePort : bool) (w : World) :
  sent (snd (buildBindingRequest changeIP changePort w)) = sent w.
Proof.
  unfold buildBindingRequest, rand_Read.
  destruct (rand_q w) as [| [bs | err] q]; cbn;
    destruct (changeIP || changePort); reflexivity.
Qed.

Lemma doTest3_sent (UDPAddr_String : option UDPAddr -> string)
    (srvAddr : option UDPAddr) (c : Client) (w : World) :
  exists b k, (k <= 9)%nat
    /\ sent (snd (doTest3 UDPAddr_String srvAddr c w))
       = sent w ++ repeat (b, srvAddr) k.
Proof.
  unfold doTest3.
  pose proof (buildBindingRequest_sent false false w) as Hb.
  destruct (buildBindingRequest false false w) as [[rqst |] w0];
    cbn [snd] in Hb.
  - unfold fsmSendPackageWaitReply.
    destruct (retransmit_sent c rqst (serialize rqst) srvAddr fchk3
                maxRetransmitNum defRetransmitIntervalMs w0)
      as (k & Hk & E).
    exists (serialize rqst), k. split; [exact Hk |]. rewrite <- Hb, <- E.
    destruct (retransmit _ _ _ _ _ _ _ _) as [r w'].
    destruct r as [[[reply |] | e] | |]; try reflexivity.
    destruct (getMappedAddr reply) as [nmapAddr | |]; try reflexivity.
    destruct (negb _); reflexivity.
  - exists [], 0%nat. split; [lia |]. cbn. now rewrite app_nil_r.
Qed.

(** C1.  [doDetect] runs the probes in the order Test1, Test2, Test3,
    Test4 and stops at the first one that returns an error or a
    classification other than Unknown.  When Test1 ends without a verdict
    it has recorded the mapped and the changed address of its reply; then,
    if the engine hands Test2 an accepted reply, the result is OpenInternet
    when the recorded mapped address prints like the local address and
    FullCone otherwise; if the engine hands Test2 no reply, the result is
    SymmetricUDPFirewall when they print alike, and otherwise the run goes
    on with Test3, whose datagrams all go to the changed address recorded
    in Test1, and then Test4. *)
Theorem doDetect_order (UDPAddr_String : option UDPAddr -> string)
    (c : Client) (w : World) :
  doDetect UDPAddr_String c w
  = run_probes
      [ (fun c => doTest1 (nSrvAddr c) c);
        (fun c => doTest2 UDPAddr_String (nSrvAddr c) c);
        (fun c => doTest3 UDPAddr_String (nChangedAddr c) c);
        (fun c => doTest4 (nSrvAddr c) c) ] c w
  /\ forall c1 w1 pkg w1' reply w2,
       doTest1 (nSrvAddr c) c w = (Ret (NATTypeUnknown, None), c1, w1) ->
       buildBindingRequest true true w1 = (pkg, w1') ->
       fsmSendPackageWaitReply c1 pkg (nSrvAddr c1) (fchk2 UDPAddr_String) w1'
       = (Ret (Ok reply), w2) ->
       let hasPublicIP :=
         String.eqb (UDPAddr_String (nMappedAddr c1))
                    (UDPAddr_String (nLocalAddr c1)) in
       (exists reply1,
          getMappedAddr reply1 = Ret (nMappedAddr c1)
          /\ getChangedAddr reply1 = Ret (nChangedAddr c1)
          /\ nLocalAddr c1 = nLocalAddr c)
       /\ match reply with
          | Some _ =>
              doDetect UDPAddr_String c w
              = (Ret ((if hasPublicIP then NATTypeOpenInternet
                       else NATTypeFullCone), None), c1, w2)
          | None =>
              if hasPublicIP then
                doDetect UDPAddr_String c w
                = (Ret (NATTypeSymmetricUDPFirewall, None), c1, w2)
              else
                doDetect UDPAddr_String c w
                = run_probes
                    [ doTest3 UDPAddr_String (nChangedAddr c1);
                      (fun c => doTest4 (nSrvAddr c) c) ] c1 w2
                /\ exists b k,
                     sent (snd (doTest3 UDPAddr_String (nChangedAddr c1)
                                  c1 w2))
                     = sent w2 ++ repeat (b, nChangedAddr c1) k
          end.
Proof.
  split.
  - unfold doDetect. cbn [run_probes].
    destruct (doTest1 (nSrvAddr c) c w) as [[[r1 | |] c1] w1];
      try reflexivity.
    destruct (terminal r1); [reflexivity |].
    destruct (doTest2 UDPAddr_String (nSrvAddr c1) c1 w1)
      as [[[r2 | |] c2] w2]; try reflexivity.
    destruct (terminal r2); [reflexivity |].
    destruct (doTest3 UDPAddr_String (nChangedAddr c2) c2 w2)
      as [[[r3 | |] c3] w3]; try reflexivity.
    destruct (terminal r3); [reflexivity |].
    destruct (doTest4 (nSrvAddr c3) c3 w3) as [[[r4 | |] c4] w4];
      try reflexivity.
    destruct (terminal r4) eqn:E4; [reflexivity |].
    now rewrite (terminal_false r4 E4).
  - intros c1 w1 pkg w1' reply w2 H1 Hb Hf hasPublicIP.
    destruct (doTest1_records _ _ _ _ _ H1)
      as (pkg1 & w0 & reply1 & _ & _ & Hm & Hch & Hl & Hs).
    split; [exists reply1; auto |].
    assert (H2 : doTest2 UDPAddr_String (nSrvAddr c1) c1 w1
                 = match reply with
                   | None =>
                       if hasPublicIP
                       then (Ret (NATTypeSymmetricUDPFirewall, None), c1, w2)
                       else (Ret (NATTypeUnknown, None), c1, w2)
                   | Some _ =>
                       if hasPublicIP
                       then (Ret (NATTypeOpenInternet, None), c1, w2)
                       else (Ret (NATTypeFullCone, None), c1, w2)
                   end).
    { unfold doTest2. rewrite Hb, Hf. reflexivity. }
    unfold doDetect. rewrite H1. cbn [terminal]. rewrite H2.
    destruct reply as [r |]; destruct hasPublicIP; cbn [terminal];
      try reflexivity.
    split.
    + cbn [run_probes].
      destruct (doTest3 UDPAddr_String (nChangedAddr c1) c1 w2)
        as [[[r3 | |] c3] w3]; try reflexivity.
      destruct (terminal r3); [reflexivity |].
      destruct (doTest4 (nSrvAddr c3) c3 w3) as [[[r4 | |] c4] w4];
        try reflexivity.
      destruct (terminal r4) eqn:E4; [reflexivity |].
      now rewrite (terminal_false r4 E4).
    + destruct (doTest3_sent UDPAddr_String (nChangedAddr c1) c1 w2)
        as (b & k & _ & E).
      now exists b, k.
Qed.

Lemma doDetect_order_witness :
  doDetect raw_String demo_client demo_world
  = (Ret (NATTypeSymmetricUDPFirewall, None), demo_c1, snd demo_engine2).
Proof.
  destruct (proj2 (doDetect_order raw_String demo_client demo_world)
              demo_c1 (snd demo_test1) (fst demo_request2)
              (snd demo_request2) None (snd demo_engine2)) as (_ & H).
  - vm_compute. reflexivity.
  - vm_compute. reflexivity.
  - vm_compute. reflexivity.
  - assert (E : String.eqb (raw_String (nMappedAddr demo_c1))
                           (raw_String (nLocalAddr demo_c1)) = true)
      by (vm_compute; reflexivity).
    rewrite E in H. exact H.
Defined.

(** * Further properties *)

(** ** Attributes *)

Lemma newAttribute_layout_aux (types : Z) (raw : list byte) :
  len raw <= 65532 ->
  a_length (newAttribute types raw) = len (a_value (newAttribute types raw))
  /\ len (a_value (newAttribute types raw)) mod 4 = 0.
Proof.
  intros Hle. unfold newAttribute. cbn [a_length a_value].
  pose proof (len_nonneg raw) as Hr.
  pose proof (padding_len raw) as Hp.
  pose proof (Z.div_mod (len raw + 3) 4 ltac:(lia)) as Hd.
  pose proof (Z.mod_pos_bound (len raw + 3) 4 ltac:(lia)) as Hm.
  split; [apply wrap16_small; lia | apply padding_mod4].
Qed.

(** X1.  [newAttribute] stores the raw value followed by fewer than four
    zero bytes, up to a multiple of four; the stored length is the length of
    that padded value exactly when the raw value has at most 65532 bytes
    (beyond that the 16-bit length is truncated). *)
Theorem newAttribute_layout (types : Z) (raw : list byte) :
  let a := newAttribute types raw in
  a_types a = types
  /\ (exists k, (k < 4)%nat /\ a_value a = raw ++ repeat x00 k)
  /\ len (a_value a) mod 4 = 0
  /\ (a_length a = len (a_value a) <-> len raw <= 65532).
Proof.
  cbv zeta. unfold newAttribute. cbn [a_types a_length a_value].
  pose proof (len_nonneg raw) as Hr.
  pose proof (padding_len raw) as Hp.
  pose proof (Z.div_mod (len raw + 3) 4 ltac:(lia)) as Hd.
  pose proof (Z.mod_pos_bound (len raw + 3) 4 ltac:(lia)) as Hm.
  split; [reflexivity |]. split; [| split; [apply padding_mod4 |]].
  - exists (Z.to_nat ((4 - len raw mod 4) mod 4)). split; [| reflexivity].
    pose proof (Z.mod_pos_bound (4 - len raw mod 4) 4 ltac:(lia)). lia.
  - split.
    + intros E.
      pose proof (wrap16_range (len (padding raw))) as Hw. rewrite E in Hw.
      lia.
    + intros Hle. apply wrap16_small. lia.
Qed.

(** X2.  [commAddr] on an attribute whose stored length is the length of
    its value: with fewer than four bytes it panics; with four or more the
    port is the big-endian number in bytes 2 and 3 and the address is
    everything from byte 4 on, whatever bytes 0 and 1 (reserved, family)
    hold. *)
Theorem commAddr_spec (a : attribute) :
  a_length a = len (a_value a) ->
  (a_length a < 4 -> commAddr a = Panic)
  /\ (4 <= a_length a ->
      commAddr a = Ret {| IP := skipn 4 (a_value a);
                          Port := u16_at (a_value a) 2;
                          Zone := EmptyString |}).
Proof.
  intros Hl. split.
  - apply commAddr_short.
  - apply commAddr_decodes, Hl.
Qed.

Lemma commAddr_spec_witness :
  commAddr (newAttribute attributeMappedAddress
              (hex [0; 9; 0xb5; 0x59; 154; 89; 5; 1]))
  = Ret {| IP := hex [154; 89; 5; 1]; Port := 46425; Zone := EmptyString |}.
Proof.
  apply (commAddr_spec
           (newAttribute attributeMappedAddress
              (hex [0; 9; 0xb5; 0x59; 154; 89; 5; 1]))).
  - reflexivity.
  - vm_compute. discriminate.
Defined.

(** ** What the parser returns *)

Lemma slice_length {A : Type} (s t : list A) (lo hi : Z) :
  slice s lo hi = Ret t -> len t = hi - lo /\ 0 <= lo <= hi /\ hi <= len s.
Proof.
  unfold slice. intros H.
  destruct (0 <=? lo) eqn:E1; [| discriminate].
  destruct (lo <=? hi) eqn:E2; [| discriminate].
  destruct (hi <=? len s) eqn:E3; [| discriminate].
  apply Z.leb_le in E1, E2, E3. cbn in H. injection H as <-.
  unfold len in *. rewrite length_firstn, length_skipn. lia.
Qed.

Lemma Uint16_range (b : list byte) (v : Z) :
  Uint16 b = Ret v -> 0 <= v < 65536.
Proof.
  destruct b as [| b0 [| b1 rest]]; try discriminate.
  rewrite Uint16_cons. intros H.
  assert (E : 256 * Z_of_byte b0 + Z_of_byte b1 = v) by congruence.
  pose proof (Z_of_byte_range b0). pose proof (Z_of_byte_range b1). lia.
Qed.

Lemma newAttribute_wf_attribute (types : Z) (value : list byte) :
  0 <= types < 65536 -> len value <= 65532 ->
  wf_attribute (newAttribute types value).
Proof.
  intros Ht Hv.
  destruct (newAttribute_layout_aux types value Hv) as (H1 & H2).
  unfold wf_attribute. cbn [newAttribute a_types]. auto.
Qed.

(** The loop only appends attributes, each of them as [newAttribute] makes
    them, and leaves the other fields of the packet alone. *)
Lemma parseAttributes_appends (fuel : nat) :
  forall (data : list byte) (pos : Z) (pkt p : packet),
  len data <= 65532 ->
  parseAttributes fuel data pos pkt = Ret (Ok p) ->
  p_types p = p_types pkt /\ transID p = transID pkt
  /\ orgHost p = orgHost pkt
  /\ exists l, attributes p = attributes pkt ++ l /\ Forall wf_attribute l.
Proof.
  induction fuel as [| fuel IH]; intros data pos pkt p Hlen H;
    cbn [parseAttributes] in H; [discriminate |].
  destruct (wrap16 (pos + 4) <? wrap16 (len data)).
  2:{ injection H as <-. repeat split. exists []. rewrite app_nil_r. auto. }
  destruct (slice data pos (wrap16 (pos + 2))) as [tb | |];
    cbn [bind] in H; try discriminate.
  destruct (Uint16 tb) as [types | |] eqn:Et; cbn [bind] in H;
    try discriminate.
  destruct (slice data (wrap16 (pos + 2)) (wrap16 (pos + 4))) as [lb | |];
    cbn [bind] in H; try discriminate.
  destruct (Uint16 lb) as [length | |]; cbn [bind] in H; try discriminate.
  destruct (_ || _); [discriminate |].
  destruct (slice data (wrap16 (pos + 4)) _) as [value | |] eqn:Ev;
    cbn [bind] in H; try discriminate.
  apply IH in H as (H1 & H2 & H3 & l & H4 & H5); [| exact Hlen].
  cbn [addAttribute p_types transID orgHost attributes] in H1, H2, H3, H4.
  repeat split; try assumption.
  exists (newAttribute types value :: l). split.
  - rewrite H4, <- app_assoc. reflexivity.
  - constructor; [| exact H5].
    apply slice_length in Ev as (Hv & Hlo & Hhi).
    apply newAttribute_wf_attribute; [exact (Uint16_range _ _ Et) | lia].
Qed.

Lemma parsePackage_ok_length (data : list byte) (p : packet) :
  parsePackage data = Ret (Ok p) -> 20 <= len data <= 65535.
Proof.
  unfold parsePackage. intros H.
  destruct (Z.ltb_spec (len data) 20); [discriminate |].
  destruct (len data >? 65535) eqn:E; [discriminate |].
  rewrite Z.gtb_ltb in E. apply Z.ltb_ge in E. lia.
Qed.

(** X3.  Every packet the parser returns has the message type and the
    sixteen bytes of transaction id of the datagram's header, no sender
    address yet, and only attributes in the form [newAttribute] gives
    them: a 16-bit type, a value whose length is a multiple of four, and a
    stored length equal to the length of the value. *)
Theorem parsePackage_packet (data : list byte) (p : packet) :
  parsePackage data = Ret (Ok p) ->
  p_types p = u16_at data 0
  /\ transID p = firstn 16 (skipn 4 data)
  /\ len (transID p) = 16
  /\ orgHost p = None
  /\ Forall wf_attribute (attributes p).
Proof.
  intros H. pose proof (parsePackage_ok_length data p H) as Hlen.
  rewrite parsePackage_body in H by exact Hlen.
  apply parseAttributes_appends in H as (H1 & H2 & H3 & l & H4 & H5).
  - cbn [header_packet p_types transID orgHost attributes app] in *.
    rewrite H1, H2, H3, H4. repeat split; try assumption.
    unfold len in *. rewrite length_firstn, length_skipn. lia.
  - rewrite len_skipn by lia. lia.
Qed.

Lemma parsePackage_packet_witness :
  p_types (the_packet (parsePackage sample_reply)) = msgTypeBindingResponse
  /\ transID (the_packet (parsePackage sample_reply))
     = firstn 16 (skipn 4 sample_reply)
  /\ len (transID (the_packet (parsePackage sample_reply))) = 16
  /\ orgHost (the_packet (parsePackage sample_reply)) = None
  /\ Forall wf_attribute (attributes (the_packet (parsePackage sample_reply))).
Proof.
  apply (parsePackage_packet sample_reply).
  vm_compute. reflexivity.
Defined.

(** The accessor on a list of attributes in that form. *)
Lemma findAttrAddr_loop_wf (attrs : list attribute) (t : Z) :
  Forall wf_attribute attrs ->
  match findAttrAddr_loop attrs t with
  | Ret None => Forall (fun a => a_types a <> t) attrs
  | Ret (Some addr) =>
      exists pre a post,
        attrs = pre ++ a :: post
        /\ Forall (fun b => a_types b <> t) pre
        /\ a_types a = t /\ 4 <= a_length a
        /\ addr = {| IP := skipn 4 (a_value a);
                     Port := u16_at (a_value a) 2;
                     Zone := EmptyString |}
  | Panic =>
      exists pre a post,
        attrs = pre ++ a :: post
        /\ Forall (fun b => a_types b <> t) pre
        /\ a_types a = t /\ a_value a = []
  | OutOfFuel => False
  end.
Proof.
  induction 1 as [| a attrs Ha Hrest IH]; cbn [findAttrAddr_loop].
  - constructor.
  - destruct (Z.eqb_spec (a_types a) t) as [Heq | Hne].
    + destruct Ha as (_ & Hl & Hm).
      assert (Hc : a_length a < 4 \/ 4 <= a_length a) by lia.
      destruct Hc as [Hc | Hc].
      * rewrite commAddr_short by exact Hc. cbn [bind].
        exists [], a, attrs. repeat split; auto.
        destruct (a_value a) as [| b0 v]; [reflexivity | exfalso].
        rewrite Hl in Hc. clear Hl. unfold len in *. cbn [List.length] in *.
        rewrite Z.mod_small in Hm by lia. lia.
      * rewrite commAddr_decodes by assumption. cbn [bind].
        exists [], a, attrs. repeat split; auto.
    + destruct (findAttrAddr_loop attrs t) as [[addr |] | |].
      * destruct IH as (pre & b & post & -> & Hpre & Hb).
        exists (a :: pre), b, post. split; [reflexivity |].
        split; [constructor; assumption | exact Hb].
      * constructor; assumption.
      * destruct IH as (pre & b & post & -> & Hpre & Hb).
        exists (a :: pre), b, post. split; [reflexivity |].
        split; [constructor; assumption | exact Hb].
      * exact IH.
Qed.

(** X4.  On a packet the parser returned, the address accessor answers by
    the first attribute of the asked type alone: it returns nil exactly
    when the packet has no such attribute, panics exactly when that first
    attribute has an empty value, and otherwise returns the address decoded
    from it (port from bytes 2-3, address from byte 4 on); later attributes
    of the same type are never looked at. *)
Theorem findAttrAddr_parsed (data : list byte) (p : packet) (t : Z) :
  parsePackage data = Ret (Ok p) ->
  match findAttrAddr p t with
  | Ret None => Forall (fun a => a_types a <> t) (attributes p)
  | Ret (Some addr) =>
      exists pre a post,
        attributes p = pre ++ a :: post
        /\ Forall (fun b => a_types b <> t) pre
        /\ a_types a = t /\ 4 <= a_length a
        /\ addr = {| IP := skipn 4 (a_value a);
                     Port := u16_at (a_value a) 2;
                     Zone := EmptyString |}
  | Panic =>
      exists pre a post,
        attributes p = pre ++ a :: post
        /\ Forall (fun b => a_types b <> t) pre
        /\ a_types a = t /\ a_value a = []
  | OutOfFuel => False
  end.
Proof.
  intros H. pose proof (parsePackage_ok_length data p H) as Hlen.
  rewrite parsePackage_body in H by exact Hlen.
  apply parseAttributes_appends in H as (_ & _ & _ & l & H4 & H5).
  - cbn [header_packet attributes app] in H4. unfold findAttrAddr.
    rewrite H4. apply findAttrAddr_loop_wf, H5.
  - rewrite len_skipn by lia. lia.
Qed.

Lemma findAttrAddr_parsed_witness :
  match findAttrAddr (the_packet (parsePackage sample_reply))
          attributeResponseAddress with
  | Ret None =>
      Forall (fun a => a_types a <> attributeResponseAddress)
        (attributes (the_packet (parsePackage sample_reply)))
  | Ret (Some addr) =>
      exists pre a post,
        attributes (the_packet (parsePackage sample_reply))
        = pre ++ a :: post
        /\ Forall (fun b => a_types b <> attributeResponseAddress) pre
        /\ a_types a = attributeResponseAddress /\ 4 <= a_length a
        /\ addr = {| IP := skipn 4 (a_value a);
                     Port := u16_at (a_value a) 2;
                     Zone := EmptyString |}
  | Panic =>
      exists pre a post,
        attributes (the_packet (parsePackage sample_reply))
        = pre ++ a :: post
        /\ Forall (fun b => a_types b <> attributeResponseAddress) pre
        /\ a_types a = attributeResponseAddress /\ a_value a = []
  | OutOfFuel => False
  end.
Proof.
  apply (findAttrAddr_parsed sample_reply).
  vm_compute. reflexivity.
Defined.

Lemma parseAttributes_length_blind (fuel : nat) :
  forall (data : list byte) (pos : Z) (pkt pkt' : packet),
  same_but_length pkt pkt' ->
  match parseAttributes fuel data pos pkt,
        parseAttributes fuel data pos pkt' with
  | Ret (Ok p), Ret (Ok p') => same_but_length p p'
  | Ret (Err e), Ret (Err e') => e = e'
  | Panic, Panic => True
  | OutOfFuel, OutOfFuel => True
  | _, _ => False
  end.
Proof.
  induction fuel as [| fuel IH]; intros data pos pkt pkt' Hs;
    cbn [parseAttributes]; [exact I |].
  destruct (wrap16 (pos + 4) <? wrap16 (len data)); [| exact Hs].
  destruct (slice data pos (wrap16 (pos + 2))) as [tb | |];
    cbn [bind]; try exact I.
  destruct (Uint16 tb) as [types | |]; cbn [bind]; try exact I.
  destruct (slice data (wrap16 (pos + 2)) (wrap16 (pos + 4))) as [lb | |];
    cbn [bind]; try exact I.
  destruct (Uint16 lb) as [length | |]; cbn [bind]; try exact I.
  destruct (_ || _); [reflexivity |].
  destruct (slice data (wrap16 (pos + 4)) _) as [value | |];
    cbn [bind]; try exact I.
  apply IH. destruct Hs as (H1 & H2 & H3 & H4).
  unfold same_but_length. cbn [addAttribute p_types transID attributes orgHost].
  rewrite H3. auto.
Qed.

(** X5.  The parser never looks at the length the header declares:
    overwriting bytes 2 and 3 of a datagram changes neither whether it is
    accepted, nor the error, nor the type, transaction id and attributes of
    the packet returned. *)
Theorem parsePackage_ignores_declared_length (data : list byte)
    (b2 b3 : byte) :
  match parsePackage data,
        parsePackage (firstn 2 data ++ [b2; b3] ++ skipn 4 data) with
  | Ret (Ok p), Ret (Ok p') => same_but_length p p'
  | Ret (Err e), Ret (Err e') => e = e'
  | _, _ => False
  end.
Proof.
  set (data' := firstn 2 data ++ [b2; b3] ++ skipn 4 data).
  assert (Hcase : len data < 20 \/ 20 <= len data) by lia.
  destruct Hcase as [Hs | Hge].
  - assert (Hs' : len data' < 20).
    { unfold data', len in *. rewrite !length_app, length_firstn, length_skipn.
      cbn [List.length]. lia. }
    unfold parsePackage.
    replace (len data <? 20) with true by (symmetry; apply Z.ltb_lt; lia).
    replace (len data' <? 20) with true by (symmetry; apply Z.ltb_lt; lia).
    reflexivity.
  - destruct data as [| h0 [| h1 [| l2 [| l3 rest]]]];
      try (unfold len in Hge; cbn in Hge; lia).
    assert (Hlen : len data' = len (h0 :: h1 :: l2 :: l3 :: rest))
      by reflexivity.
    destruct (Z.ltb_spec 65535 (len (h0 :: h1 :: l2 :: l3 :: rest)))
      as [Hl | Hl].
    + unfold parsePackage. rewrite Hlen.
      replace (len (h0 :: h1 :: l2 :: l3 :: rest) <? 20) with false
        by (symmetry; apply Z.ltb_ge; lia).
      replace (len (h0 :: h1 :: l2 :: l3 :: rest) >? 65535) with true
        by (symmetry; apply Z.gtb_lt; lia).
      reflexivity.
    + rewrite !parsePackage_body by lia.
      change (skipn 20 data') with (skipn 20 (h0 :: h1 :: l2 :: l3 :: rest)).
      pose proof (parseAttributes_length_blind
                    (S (List.length (skipn 20 (h0 :: h1 :: l2 :: l3 :: rest))))
                    (skipn 20 (h0 :: h1 :: l2 :: l3 :: rest)) 0
                    (header_packet (h0 :: h1 :: l2 :: l3 :: rest))
                    (header_packet data')) as H.
      assert (Hsame : same_but_length
                        (header_packet (h0 :: h1 :: l2 :: l3 :: rest))
                        (header_packet data'))
        by (repeat split; reflexivity).
      specialize (H Hsame).
      destruct (parseAttributes_returns
                  (S (List.length (skipn 20 (h0 :: h1 :: l2 :: l3 :: rest))))
                  (skipn 20 (h0 :: h1 :: l2 :: l3 :: rest)) 0
                  (header_packet (h0 :: h1 :: l2 :: l3 :: rest)))
        as (r & E).
      * rewrite len_skipn by lia. lia.
      * rewrite len_skipn by lia. lia.
      * unfold len. lia.
      * rewrite E in H |- *.
        destruct r as [p | e];
          destruct (parseAttributes _ _ 0 (header_packet data'))
            as [[p' | e'] | |]; try contradiction; exact H.
Qed.

(** ** What the client sends *)

Lemma attributes_size_encoded (attrs : list attribute) :
  Forall (fun a => a_length a = len (a_value a)
                   /\ len (a_value a) mod 4 = 0
                   /\ len (a_value a) <= 65532) attrs ->
  attributes_size attrs = len (flat_map encode_attr attrs).
Proof.
  induction 1 as [| a attrs (Hl & Hm & Hb) _ IH].
  - reflexivity.
  - rewrite len_flat_encode_cons. cbn [attributes_size fold_right].
    fold (attributes_size attrs). rewrite IH, Hl.
    rewrite align_multiple by (pose proof (len_nonneg (a_value a)); lia || assumption).
    lia.
Qed.

Lemma len_serialize (v : packet) :
  len (serialize v)
  = 4 + len (transID v) + len (flat_map encode_attr (attributes v)).
Proof.
  rewrite serialize_flat, !len_app.
  change (len (PutUint16 (p_types v))) with 2.
  change (len (PutUint16 (p_length v))) with 2. lia.
Qed.

Lemma len_padding_ge (bs : list byte) : len bs <= len (padding bs).
Proof.
  unfold padding. rewrite len_app.
  pose proof (len_nonneg (repeat x00 (Z.to_nat ((4 - len bs mod 4) mod 4)))).
  lia.
Qed.

(** X6.  For a message built by [addAttribute] from attributes made by
    [newAttribute], with a 16-byte transaction id and a serialized form of
    at most 65535 bytes: the length field counts exactly the bytes that
    follow the 20-byte header, and bytes 2 and 3 of the serialized message
    hold that number, big-endian. *)
Theorem serialize_length_field (t : Z) (tid : list byte)
    (specs : list (Z * list byte)) :
  len tid = 16 ->
  len (serialize (build_message t tid specs)) <= 65535 ->
  len (serialize (build_message t tid specs))
  = 20 + p_length (build_message t tid specs)
  /\ u16_at (serialize (build_message t tid specs)) 2
     = p_length (build_message t tid specs).
Proof.
  intros Htid Hlen.
  pose proof (build_message_length t tid specs) as Hpl.
  rewrite build_message_fold in *.
  set (m := fold_left addAttribute (spec_attrs specs) (new_message t tid))
    in *.
  destruct (addAttributes_fields (spec_attrs specs) (new_message t tid))
    as (_ & Mid & Mattrs).
  fold m in Mid, Mattrs. cbn [new_message transID attributes app] in Mid, Mattrs.
  rewrite len_serialize, Mid, Mattrs, Htid in Hlen.
  rewrite len_serialize, Mid, Mattrs, Htid.
  pose proof (len_nonneg (flat_map encode_attr (spec_attrs specs))) as Hf.
  assert (Hsize : attributes_size (spec_attrs specs)
                  = len (flat_map encode_attr (spec_attrs specs))).
  { apply attributes_size_encoded, Forall_forall. intros a Hin.
    pose proof (len_value_le_flat a _ Hin) as Hle.
    unfold spec_attrs in Hin. apply in_map_iff in Hin as (s & <- & _).
    pose proof (len_padding_ge (snd s)).
    cbn [newAttribute a_value] in Hle.
    destruct (newAttribute_layout_aux (fst s) (snd s)) as (H1 & H2); [lia |].
    repeat split; try assumption. cbn [newAttribute a_value]. lia. }
  rewrite Mattrs, Hsize in Hpl.
  rewrite wrap16_small in Hpl by lia.
  split; [lia |].
  rewrite serialize_flat.
  change 2 with (len (PutUint16 (p_types m))) at 1.
  rewrite u16_at_app by lia. reflexivity.
Qed.

Lemma serialize_length_field_witness :
  len (serialize (build_message 1 (repeat x07 16)
                    [(3, [x00; x00; x00; x06]); (6, [x61])]))
  = 20 + p_length (build_message 1 (repeat x07 16)
                     [(3, [x00; x00; x00; x06]); (6, [x61])])
  /\ u16_at (serialize (build_message 1 (repeat x07 16)
                          [(3, [x00; x00; x00; x06]); (6, [x61])])) 2
     = p_length (build_message 1 (repeat x07 16)
                   [(3, [x00; x00; x00; x06]); (6, [x61])]).
Proof.
  apply serialize_length_field.
  - reflexivity.
  - vm_compute. discriminate.
Defined.

(** X7.  With a random source that delivers its twelve bytes,
    [buildBindingRequest] returns a Binding Request whose transaction id is
    the cookie a2 40 02 27 followed by those bytes; it has no attribute when
    neither flag is set and otherwise the single CHANGE-REQUEST attribute
    00 00 00 f, f having bit 0x04 for change-IP and bit 0x02 for
    change-port; its serialized form has 20 or 28 bytes, and the parser
    reads the type, the transaction id and the attributes back from it. *)
Theorem buildBindingRequest_request (changeIP changePort : bool) (w : World)
    (bs : list byte) (q : list (res (list byte))) :
  rand_q w = Ok bs :: q -> List.length bs = 12%nat ->
  exists rq w',
    buildBindingRequest changeIP changePort w = (Some rq, w')
    /\ rand_q w' = q /\ sent w' = sent w /\ read_q w' = read_q w
    /\ p_types rq = msgTypeBindingRequest
    /\ transID rq = hex [0xa2; 0x40; 0x02; 0x27] ++ bs
    /\ attributes rq
       = (if changeIP || changePort
          then [ {| a_types := attributeChangeRequest; a_length := 4;
                    a_value := [x00; x00; x00;
                                byte_of_Z (change_flags changeIP changePort)]
                 |} ]
          else [])
    /\ len (serialize rq) = (if changeIP || changePort then 28 else 20)
    /\ exists p, parsePackage (serialize rq) = Ret (Ok p)
                 /\ p_types p = p_types rq
                 /\ transID p = transID rq
                 /\ attributes p = attributes rq.
Proof.
  intros Hq Hbs.
  do 12 (destruct bs as [| ? bs]; [discriminate Hbs |]).
  destruct bs; [| discriminate Hbs].
  unfold buildBindingRequest, rand_Read. rewrite Hq.
  cbn [newPacket]. 
  destruct changeIP, changePort; cbn [orb];
    eexists; eexists; (split; [reflexivity |]);
    cbn [rand_q sent read_q];
    (split; [reflexivity |]); (split; [reflexivity |]);
    (split; [reflexivity |]); (split; [reflexivity |]);
    (split; [reflexivity |]); (split; [reflexivity |]);
    (split; [reflexivity |]);
    (eexists; split; [vm_compute; reflexivity |]);
    cbn; auto.
Qed.

Lemma buildBindingRequest_request_witness :
  exists rq w',
    buildBindingRequest true false empty_mapped_world = (Some rq, w')
    /\ rand_q w' = [] /\ sent w' = sent empty_mapped_world
    /\ read_q w' = read_q empty_mapped_world
    /\ p_types rq = msgTypeBindingRequest
    /\ transID rq
       = hex [0xa2; 0x40; 0x02; 0x27]
         ++ hex [0; 1; 2; 3; 4; 5; 6; 7; 8; 9; 10; 11]
    /\ attributes rq
       = [ {| a_types := attributeChangeRequest; a_length := 4;
              a_value := [x00; x00; x00; byte_of_Z (change_flags true false)]
           |} ]
    /\ len (serialize rq) = 28
    /\ exists p, parsePackage (serialize rq) = Ret (Ok p)
                 /\ p_types p = p_types rq
                 /\ transID p = transID rq
                 /\ attributes p = attributes rq.
Proof.
  apply (buildBindingRequest_request true false empty_mapped_world
           (hex [0; 1; 2; 3; 4; 5; 6; 7; 8; 9; 10; 11]) []);
    reflexivity.
Defined.

(** ** The traffic of the engine *)

Lemma listen_suffix (c : Client) (rqst : packet) (fchk : chkfun)
    (rq : list read_result) :
  exists consumed, rq = consumed ++ snd (listen c rqst fchk rq).
Proof.
  induction rq as [| r rq (consumed & IH)].
  - exists []. reflexivity.
  - assert (Hnow : exists consumed0, r :: rq = consumed0 ++ rq)
      by (exists [r]; reflexivity).
    assert (Hlater : exists consumed0,
               r :: rq = consumed0 ++ snd (listen c rqst fchk rq))
      by (exists (r :: consumed); cbn; now rewrite <- IH).
    cbn [listen]. destruct r as [data peerAddr | e].
    + destruct (parsePackage (firstn maxPacketSize data)) as [[p | e] | |];
        try exact Hnow.
      destruct (negb (bytes_Equal (transID rqst) (transID p)));
        [exact Hlater |].
      destruct (fchk c (set_orgHost p (Some peerAddr))) as [[|] | |];
        try exact Hnow. exact Hlater.
    + destruct (is_timeout e); exact Hnow.
Qed.

(** What the listen loop returns is never "no reply", and a reply it
    returns is a datagram of the script that decoded, carried the id of
    the request and passed the check. *)
Lemma listen_returns (c : Client) (rqst : packet) (fchk : chkfun)
    (rq : list read_result) (r : exec (res (option packet)))
    (rq' : list read_result) :
  listen c rqst fchk rq = (Some r, rq') ->
  match r with
  | Ret (Ok None) => False
  | Ret (Ok (Some p)) =>
      exists data peerAddr p0,
        In (ReadData data peerAddr) rq
        /\ parsePackage (firstn maxPacketSize data) = Ret (Ok p0)
        /\ p = set_orgHost p0 (Some peerAddr)
        /\ transID p0 = transID rqst
        /\ fchk c p = Ret true
  | _ => True
  end.
Proof.
  induction rq as [| x rq IH]; cbn [listen]; [discriminate |].
  assert (Hlater : listen c rqst fchk rq = (Some r, rq') ->
            match r with
            | Ret (Ok None) => False
            | Ret (Ok (Some p)) =>
                exists data peerAddr p0,
                  In (ReadData data peerAddr) (x :: rq)
                  /\ parsePackage (firstn maxPacketSize data) = Ret (Ok p0)
                  /\ p = set_orgHost p0 (Some peerAddr)
                  /\ transID p0 = transID rqst
                  /\ fchk c p = Ret true
            | _ => True
            end).
  { intros H. specialize (IH H).
    destruct r as [[[p |] | e] | |]; auto.
    destruct IH as (data & peerAddr & p0 & Hin & Hrest).
    exists data, peerAddr, p0. split; [right; exact Hin | exact Hrest]. }
  destruct x as [data peerAddr | e].
  - destruct (parsePackage (firstn maxPacketSize data)) as [[p0 | e] | |] eqn:Ep;
      try (intros H; injection H as <- <-; exact I).
    unfold bytes_Equal.
    destruct (list_eq_dec Byte.byte_eq_dec (transID rqst) (transID p0))
      as [Hid | Hid]; cbn [negb]; [| exact Hlater].
    destruct (fchk c (set_orgHost p0 (Some peerAddr))) as [[|] | |] eqn:Ec;
      try (intros H; injection H as <- <-; exact I); [| exact Hlater].
    intros H. injection H as <- <-.
    exists data, peerAddr, p0. repeat split; auto. now left.
  - destruct (is_timeout e); [discriminate |].
    intros H. injection H as <- <-. exact I.
Qed.

(** The log of [n] attempts, whatever the network does. *)
Lemma retransmit_log (c : Client) (rqst : packet) (b : list byte)
    (addr : option UDPAddr) (fchk : chkfun) (n : nat) :
  forall (timeout : Z) (w : World),
  exists k j consumed,
    (k <= n)%nat /\ (j <= k <= j + 1)%nat
    /\ sent (snd (retransmit n c rqst b addr fchk timeout w))
       = sent w ++ repeat (b, addr) k
    /\ deadlines (snd (retransmit n c rqst b addr fchk timeout w))
       = deadlines w ++ firstn j (schedule n timeout)
    /\ read_q w
       = consumed ++ read_q (snd (retransmit n c rqst b addr fchk timeout w))
    /\ rand_q (snd (retransmit n c rqst b addr fchk timeout w)) = rand_q w
    /\ (fst (retransmit n c rqst b addr fchk timeout w) = Ret (Ok None) ->
        k = n /\ j = n).
Proof.
  induction n as [| n IH]; intros timeout w.
  - exists 0%nat, 0%nat, []. cbn. rewrite !app_nil_r.
    split; [lia |]. split; [lia |]. do 4 (split; [reflexivity |]). auto.
  - cbn [retransmit]. unfold WriteTo, SetReadDeadline.
    destruct (match write_q w with
              | [] | WriteAll :: _ => (len b, @None error)
              | WriteN k :: _ => (k, None)
              | WriteErr e :: _ => (0, Some e)
              end) as [length err].
    destruct err as [err |].
    { exists 1%nat, 0%nat, []. cbn. rewrite app_nil_r.
      split; [lia |]. split; [lia |]. do 4 (split; [reflexivity |]).
      discriminate. }
    destruct (negb (length =? len b)).
    { exists 1%nat, 0%nat, []. cbn. rewrite app_nil_r.
      split; [lia |]. split; [lia |]. do 4 (split; [reflexivity |]).
      discriminate. }
    cbn [deadline_q read_q].
    destruct (match deadline_q w with
              | [] => None
              | r :: _ => r
              end) as [err |].
    { exists 1%nat, 1%nat, []. cbn.
      split; [lia |]. split; [lia |]. do 4 (split; [reflexivity |]).
      discriminate. }
    destruct (listen_suffix c rqst fchk (read_q w)) as (consumed0 & Hc0).
    destruct (listen c rqst fchk (read_q w)) as [[r |] rq] eqn:El;
      cbn [snd] in Hc0.
    { exists 1%nat, 1%nat, consumed0. cbn.
      split; [lia |]. split; [lia |]. do 2 (split; [reflexivity |]).
      split; [exact Hc0 |]. split; [reflexivity |].
      intros ->. exfalso. exact (listen_returns _ _ _ _ _ _ El). }
    match goal with
    | |- context [retransmit n c rqst b addr fchk ?t ?w'] =>
        destruct (IH t w')
          as (k & j & consumed & Hk & Hj & Hs & Hd & Hr & Hq & Hn)
    end.
    exists (S k), (S j), (consumed0 ++ consumed).
    rewrite Hs, Hd, Hq. cbn in Hr |- *.
    split; [lia |]. split; [lia |].
    split; [now rewrite <- app_assoc |].
    split; [now rewrite <- app_assoc |].
    split; [now rewrite <- app_assoc, <- Hr |].
    split; [reflexivity |].
    intros H. specialize (Hn H). lia.
Qed.

(** X8.  Whatever the network does, the engine only ever sends the
    serialized request, to the address it was given, at most nine times;
    the deadlines it sets are the first ones of 100, 200, 400, 800, 1600,
    1600, 1600, 1600, 1600 ms, one per send (the last send may lack its
    deadline when the send failed); it draws no randomness, it reads the
    answers of the network in their order, and it reports "no reply" only
    after all nine attempts. *)
Theorem fsm_traffic (c : Client) (rqst : packet) (srvAddr : option UDPAddr)
    (fchk : chkfun) (w : World) :
  let run := fsmSendPackageWaitReply c (Some rqst) srvAddr fchk w in
  exists k j consumed,
    (k <= 9)%nat /\ (j <= k <= j + 1)%nat
    /\ sent (snd run) = sent w ++ repeat (serialize rqst, srvAddr) k
    /\ deadlines (snd run) = deadlines w ++ firstn j deadline_schedule
    /\ read_q w = consumed ++ read_q (snd run)
    /\ rand_q (snd run) = rand_q w
    /\ (fst run = Ret (Ok None) -> k = 9%nat /\ j = 9%nat).
Proof.
  cbv zeta. unfold fsmSendPackageWaitReply.
  exact (retransmit_log c rqst (serialize rqst) srvAddr fchk maxRetransmitNum
           defRetransmitIntervalMs w).
Qed.

Lemma retransmit_reply (c : Client) (rqst : packet) (b : list byte)
    (addr : option UDPAddr) (fchk : chkfun) (n : nat) :
  forall (timeout : Z) (w w' : World) (p : packet),
  retransmit n c rqst b addr fchk timeout w = (Ret (Ok (Some p)), w') ->
  exists data peerAddr p0,
    In (ReadData data peerAddr) (read_q w)
    /\ parsePackage (firstn maxPacketSize data) = Ret (Ok p0)
    /\ p = set_orgHost p0 (Some peerAddr)
    /\ transID p0 = transID rqst
    /\ fchk c p = Ret true.
Proof.
  induction n as [| n IH]; intros timeout w w' p; cbn [retransmit];
    [discriminate |].
  unfold WriteTo, SetReadDeadline.
  destruct (match write_q w with
            | [] | WriteAll :: _ => (len b, @None error)
            | WriteN k :: _ => (k, None)
            | WriteErr e :: _ => (0, Some e)
            end) as [length err].
  destruct err as [err |]; [discriminate |].
  destruct (negb (length =? len b)); [discriminate |].
  cbn [deadline_q read_q].
  destruct (match deadline_q w with
            | [] => None
            | r :: _ => r
            end) as [err |]; [discriminate |].
  destruct (listen_suffix c rqst fchk (read_q w)) as (consumed & Hc).
  destruct (listen c rqst fchk (read_q w)) as [[r |] rq] eqn:El;
    cbn [snd] in Hc.
  - intros H. injection H as -> _.
    exact (listen_returns _ _ _ _ _ _ El).
  - intros H. apply IH in H as (data & peerAddr & p0 & Hin & Hrest).
    exists data, peerAddr, p0. split; [| exact Hrest].
    cbn [set_read_q read_q] in Hin. rewrite Hc. apply in_or_app. now right.
Qed.

(** X9.  A reply the engine returns is one of the datagrams the network
    delivered: its first 1024 bytes decoded, it carries the transaction id
    of the request, the acceptance check answered true on it, and its
    [orgHost] is the address it came from. *)
Theorem fsm_reply_sound (c : Client) (rqst : packet)
    (srvAddr : option UDPAddr) (fchk : chkfun) (w w' : World) (p : packet) :
  fsmSendPackageWaitReply c (Some rqst) srvAddr fchk w
  = (Ret (Ok (Some p)), w') ->
  exists data peerAddr p0,
    In (ReadData data peerAddr) (read_q w)
    /\ parsePackage (firstn maxPacketSize data) = Ret (Ok p0)
    /\ p = set_orgHost p0 (Some peerAddr)
    /\ transID p = transID rqst
    /\ orgHost p = Some peerAddr
    /\ fchk c p = Ret true.
Proof.
  unfold fsmSendPackageWaitReply. intros H.
  apply retransmit_reply in H as (data & peerAddr & p0 & H1 & H2 & -> & H4 & H5).
  exists data, peerAddr, p0. repeat split; assumption.
Qed.

Lemma fsm_reply_sound_witness :
  exists data peerAddr p0,
    In (ReadData data peerAddr) (read_q sample_world)
    /\ parsePackage (firstn maxPacketSize data) = Ret (Ok p0)
    /\ the_reply (fst (fsmSendPackageWaitReply demo_client
                         (Some sample_request) (Some demo_server) fchk1
                         sample_world))
       = set_orgHost p0 (Some peerAddr)
    /\ transID (the_reply (fst (fsmSendPackageWaitReply demo_client
                                  (Some sample_request) (Some demo_server)
                                  fchk1 sample_world)))
       = transID sample_request
    /\ orgHost (the_reply (fst (fsmSendPackageWaitReply demo_client
                                  (Some sample_request) (Some demo_server)
                                  fchk1 sample_world)))
       = Some peerAddr
    /\ fchk1 demo_client
         (the_reply (fst (fsmSendPackageWaitReply demo_client
                            (Some sample_request) (Some demo_server) fchk1
                            sample_world)))
       = Ret true.
Proof.
  apply (fsm_reply_sound demo_client sample_request (Some demo_server) fchk1
           sample_world
           (snd (fsmSendPackageWaitReply demo_client (Some sample_request)
                   (Some demo_server) fchk1 sample_world))).
  vm_compute. reflexivity.
Defined.




(** ** When the reply arrives *)

Lemma retransmit_attempt_tail (n : nat) (c : Client) (rqst : packet)
    (b : list byte) (addr : option UDPAddr) (fchk : chkfun) (timeout : Z)
    (w : World) :
  first_write_ok b w -> first_deadline_ok w ->
  retransmit (S n) c rqst b addr fchk timeout w
  = attempt_tail c rqst b addr fchk n (next_timeout timeout)
      (after_send b addr timeout w) (read_q w).
Proof.
  intros Hw Hd. rewrite retransmit_turn by assumption. reflexivity.
Qed.

Lemma quiet_first (b : list byte) (w : World) :
  Forall (write_ok b) (write_q w) ->
  Forall (fun r => r = None) (deadline_q w) ->
  first_write_ok b w /\ first_deadline_ok w.
Proof.
  intros Hw Hd. unfold first_write_ok, first_deadline_ok. split.
  - destruct (write_q w) as [| r q]; [exact I |].
    inversion Hw as [| ? ? H1 _]; subst. destruct r; cbn in H1; auto.
  - destruct (deadline_q w) as [| r q]; [exact I |].
    inversion Hd as [| ? ? H1 _]; subst. exact I.
Qed.

Lemma quiet_after_send (b : list byte) (addr : option UDPAddr) (ms : Z)
    (w : World) (rq : list read_result) :
  Forall (write_ok b) (write_q w) ->
  Forall (fun r => r = None) (deadline_q w) ->
  Forall (write_ok b) (write_q (set_read_q (after_send b addr ms w) rq))
  /\ Forall (fun r => r = None)
            (deadline_q (set_read_q (after_send b addr ms w) rq)).
Proof.
  intros Hw Hd. cbn. split.
  - destruct (write_q w); [constructor | now inversion Hw].
  - destruct (deadline_q w); [constructor | now inversion Hd].
Qed.

Section Arrival.

Variables (c : Client) (rqst : packet) (addr : option UDPAddr).
Variable fchk : chkfun.
Variables (data : list byte) (peerAddr : UDPAddr) (p0 : packet).

Hypothesis decodes : parsePackage (firstn maxPacketSize data) = Ret (Ok p0).
Hypothesis same_id : transID p0 = transID rqst.
Hypothesis accepted : fchk c (set_orgHost p0 (Some peerAddr)) = Ret true.

Lemma listen_accepts (rq : list read_result) :
  listen c rqst fchk (ReadData data peerAddr :: rq)
  = (Some (Ret (Ok (Some (set_orgHost p0 (Some peerAddr))))), rq).
Proof.
  cbn [listen]. rewrite decodes. unfold bytes_Equal.
  destruct (list_eq_dec Byte.byte_eq_dec (transID rqst) (transID p0));
    [| congruence].
  cbn [negb]. now rewrite accepted.
Qed.

(** The reply comes after the datagrams and timeouts of [skipped]. *)
Lemma attempt_tail_reply (skipped : list read_result) :
  forall (n : nat) (timeout : Z) (w : World) (rq : list read_result),
  Forall (write_ok (serialize rqst)) (write_q w) ->
  Forall (fun r => r = None) (deadline_q w) ->
  Forall (rejected c rqst fchk) skipped ->
  (count_timeouts skipped <= n)%nat ->
  exists w',
    attempt_tail c rqst (serialize rqst) addr fchk n timeout w
      (skipped ++ ReadData data peerAddr :: rq)
    = (Ret (Ok (Some (set_orgHost p0 (Some peerAddr)))), w')
    /\ read_q w' = rq
    /\ sent w'
       = sent w ++ repeat (serialize rqst, addr) (count_timeouts skipped)
    /\ deadlines w'
       = deadlines w ++ firstn (count_timeouts skipped) (schedule n timeout).
Proof.
  induction skipped as [| r skipped IH]; intros n timeout w rq Hw Hd Hr Hn.
  - exists (set_read_q w rq). unfold attempt_tail. cbn [app].
    rewrite listen_accepts. cbn. now rewrite !app_nil_r.
  - inversion Hr as [| ? ? Hr1 Hr2]; subst.
    destruct r as [d peer | e].
    + destruct Hr1 as (p & Hp & [Hne | Hfalse]).
      * unfold attempt_tail. cbn [app].
        rewrite (listen_skips_foreign_id c rqst fchk d peer _ p Hp Hne).
        apply IH; assumption.
      * unfold attempt_tail. cbn [app].
        rewrite (listen_skips_refused c rqst fchk d peer _ p Hp Hfalse).
        apply IH; assumption.
    + cbn in Hr1. cbn [count_timeouts] in Hn |- *. rewrite Hr1 in Hn |- *.
      destruct n as [| n]; [lia |].
      unfold attempt_tail. cbn [app listen]. rewrite Hr1.
      destruct (quiet_first _ _ Hw Hd) as (Hw1 & Hd1).
      rewrite retransmit_attempt_tail by assumption.
      cbn [set_read_q read_q].
      destruct (quiet_after_send (serialize rqst) addr timeout w
                  (skipped ++ ReadData data peerAddr :: rq) Hw Hd)
        as (Hw2 & Hd2).
      destruct (IH n (next_timeout timeout)
                  (after_send (serialize rqst) addr timeout
                     (set_read_q w (skipped ++ ReadData data peerAddr :: rq)))
                  rq) as (w' & E & Hq & Hs & Hdl); try assumption; [lia |].
      exists w'. split; [exact E |]. split; [exact Hq |].
      rewrite Hs, Hdl. cbn. now rewrite <- !app_assoc.
Qed.

(** More timeouts than attempts: what comes after them is never read. *)
Lemma attempt_tail_exhausted (skipped : list read_result) :
  forall (n : nat) (timeout : Z) (w : World) (later : list read_result),
  Forall (write_ok (serialize rqst)) (write_q w) ->
  Forall (fun r => r = None) (deadline_q w) ->
  Forall (rejected c rqst fchk) skipped ->
  (n < count_timeouts skipped)%nat ->
  exists w' unread,
    attempt_tail c rqst (serialize rqst) addr fchk n timeout w
      (skipped ++ later)
    = (Ret (Ok None), w')
    /\ read_q w' = unread ++ later
    /\ sent w' = sent w ++ repeat (serialize rqst, addr) n.
Proof.
  induction skipped as [| r skipped IH]; intros n timeout w later Hw Hd Hr Hn.
  - cbn in Hn. lia.
  - inversion Hr as [| ? ? Hr1 Hr2]; subst.
    destruct r as [d peer | e].
    + destruct Hr1 as (p & Hp & [Hne | Hfalse]).
      * unfold attempt_tail. cbn [app].
        rewrite (listen_skips_foreign_id c rqst fchk d peer _ p Hp Hne).
        apply IH; assumption.
      * unfold attempt_tail. cbn [app].
        rewrite (listen_skips_refused c rqst fchk d peer _ p Hp Hfalse).
        apply IH; assumption.
    + cbn in Hr1. cbn [count_timeouts] in Hn. rewrite Hr1 in Hn.
      unfold attempt_tail. cbn [app listen]. rewrite Hr1.
      destruct n as [| n].
      * exists (set_read_q w (skipped ++ later)), skipped. cbn.
        now rewrite app_nil_r.
      * destruct (quiet_first _ _ Hw Hd) as (Hw1 & Hd1).
        rewrite retransmit_attempt_tail by assumption.
        cbn [set_read_q read_q].
        destruct (quiet_after_send (serialize rqst) addr timeout w
                    (skipped ++ later) Hw Hd) as (Hw2 & Hd2).
        destruct (IH n (next_timeout timeout)
                    (after_send (serialize rqst) addr timeout
                       (set_read_q w (skipped ++ later)))
                    later) as (w' & unread & E & Hq & Hs);
          try assumption; [lia |].
        exists w', unread. split; [exact E |]. split; [exact Hq |].
        rewrite Hs. cbn. now rewrite <- !app_assoc.
Qed.

End Arrival.

(** X11.  When the transport works and the reply (a datagram that decodes,
    carries the id of the request and passes the check) arrives after [k]
    timeouts, [k < 9], among datagrams that are skipped, the engine
    returns it with the sender as [orgHost], having sent the request
    exactly [k + 1] times under the first [k + 1] deadlines of the
    schedule; what arrived after the reply is left unread. *)
Theorem fsm_reply_after_timeouts (c : Client) (rqst : packet)
    (srvAddr : option UDPAddr) (fchk : chkfun) (w : World)
    (skipped : list read_result) (data : list byte) (peerAddr : UDPAddr)
    (rq : list read_result) (p0 : packet) :
  Forall (write_ok (serialize rqst)) (write_q w) ->
  Forall (fun r => r = None) (deadline_q w) ->
  read_q w = skipped ++ ReadData data peerAddr :: rq ->
  Forall (rejected c rqst fchk) skipped ->
  (count_timeouts skipped < 9)%nat ->
  parsePackage (firstn maxPacketSize data) = Ret (Ok p0) ->
  transID p0 = transID rqst ->
  fchk c (set_orgHost p0 (Some peerAddr)) = Ret true ->
  exists w',
    fsmSendPackageWaitReply c (Some rqst) srvAddr fchk w
    = (Ret (Ok (Some (set_orgHost p0 (Some peerAddr)))), w')
    /\ read_q w' = rq
    /\ sent w'
       = sent w
         ++ repeat (serialize rqst, srvAddr) (S (count_timeouts skipped))
    /\ deadlines w'
       = deadlines w ++ firstn (S (count_timeouts skipped)) deadline_schedule.
Proof.
  intros Hw Hd Hq Hr Hk Hp Hid Hchk.
  unfold fsmSendPackageWaitReply, maxRetransmitNum.
  destruct (quiet_first _ _ Hw Hd) as (Hw1 & Hd1).
  rewrite retransmit_attempt_tail, Hq by assumption.
  destruct (quiet_after_send (serialize rqst) srvAddr defRetransmitIntervalMs
              w [] Hw Hd) as (Hw2 & Hd2).
  destruct (attempt_tail_reply c rqst srvAddr fchk data peerAddr p0
              Hp Hid Hchk skipped 8
              (next_timeout defRetransmitIntervalMs)
              (after_send (serialize rqst) srvAddr defRetransmitIntervalMs w)
              rq Hw2 Hd2 Hr ltac:(lia)) as (w' & E & Hq' & Hs & Hdl).
  exists w'. split; [exact E |]. split; [exact Hq' |].
  rewrite Hs, Hdl. cbn [after_send WriteTo SetReadDeadline snd sent deadlines].
  rewrite <- !app_assoc. split; reflexivity.
Qed.

Lemma fsm_reply_after_timeouts_witness :
  exists w',
    fsmSendPackageWaitReply demo_client (Some sample_request)
      (Some demo_server) fchk1 (delayed_world 1)
    = (Ret (Ok (Some (set_orgHost (the_packet (parsePackage sample_reply))
                        (Some demo_server)))), w')
    /\ read_q w' = []
    /\ sent w' = sent (delayed_world 1)
                 ++ repeat (serialize sample_request, Some demo_server) 2
    /\ deadlines w' = deadlines (delayed_world 1)
                      ++ firstn 2 deadline_schedule.
Proof.
  apply (fsm_reply_after_timeouts demo_client sample_request
           (Some demo_server) fchk1 (delayed_world 1) [read_timeout]
           sample_reply demo_server []
           (the_packet (parsePackage sample_reply))).
  - constructor.
  - constructor.
  - reflexivity.
  - repeat constructor.
  - cbn. lia.
  - vm_compute. reflexivity.
  - vm_compute. reflexivity.
  - vm_compute. reflexivity.
Defined.

(** X12.  When the transport works and nine timeouts pass with nothing
    but skipped datagrams, the engine returns "no reply" after its nine
    sends and reads no further: whatever arrives later, be it the reply,
    stays unread. *)
Theorem fsm_reply_too_late (c : Client) (rqst : packet)
    (srvAddr : option UDPAddr) (fchk : chkfun) (w : World)
    (skipped later : list read_result) :
  Forall (write_ok (serialize rqst)) (write_q w) ->
  Forall (fun r => r = None) (deadline_q w) ->
  read_q w = skipped ++ later ->
  Forall (rejected c rqst fchk) skipped ->
  (9 <= count_timeouts skipped)%nat ->
  exists w' unread,
    fsmSendPackageWaitReply c (Some rqst) srvAddr fchk w = (Ret (Ok None), w')
    /\ read_q w' = unread ++ later
    /\ sent w' = sent w ++ repeat (serialize rqst, srvAddr) 9.
Proof.
  intros Hw Hd Hq Hr Hk.
  unfold fsmSendPackageWaitReply, maxRetransmitNum.
  destruct (quiet_first _ _ Hw Hd) as (Hw1 & Hd1).
  rewrite retransmit_attempt_tail, Hq by assumption.
  destruct (quiet_after_send (serialize rqst) srvAddr defRetransmitIntervalMs
              w [] Hw Hd) as (Hw2 & Hd2).
  destruct (attempt_tail_exhausted c rqst srvAddr fchk skipped 8
              (next_timeout defRetransmitIntervalMs)
              (after_send (serialize rqst) srvAddr defRetransmitIntervalMs w)
              later Hw2 Hd2 Hr ltac:(lia)) as (w' & unread & E & Hq' & Hs).
  exists w', unread. split; [exact E |]. split; [exact Hq' |].
  rewrite Hs. cbn [after_send WriteTo SetReadDeadline snd sent].
  now rewrite <- !app_assoc.
Qed.

Lemma fsm_reply_too_late_witness :
  exists w' unread,
    fsmSendPackageWaitReply demo_client (Some sample_request)
      (Some demo_server) fchk1 (delayed_world 9)
    = (Ret (Ok None), w')
    /\ read_q w' = unread ++ [ReadData sample_reply demo_server]
    /\ sent w' = sent (delayed_world 9)
                 ++ repeat (serialize sample_request, Some demo_server) 9.
Proof.
  apply (fsm_reply_too_late demo_client sample_request (Some demo_server)
           fchk1 (delayed_world 9) (repeat read_timeout 9)
           [ReadData sample_reply demo_server]).
  - constructor.
  - constructor.
  - reflexivity.
  - repeat constructor.
  - cbn. lia.
Defined.

(** ** The probes *)

Lemma doTest1_verdict (srvAddr : option UDPAddr) (c : Client) (w : World) :
  error_iff_NATTypeError (fst (fst (doTest1 srvAddr c w)))
  /\ nLocalAddr (snd (fst (doTest1 srvAddr c w))) = nLocalAddr c
  /\ nSrvAddr (snd (fst (doTest1 srvAddr c w))) = nSrvAddr c.
Proof.
  unfold doTest1.
  destruct (buildBindingRequest false false w) as [pkg w0].
  destruct (fsmSendPackageWaitReply c pkg srvAddr fchk1 w0) as [r w1].
  destruct r as [[[reply |] | e] | |]; cbn; auto; try (split; [discriminate | auto]).
  destruct (getMappedAddr reply) as [m | |]; cbn; auto.
  destruct (getChangedAddr reply) as [ch | |]; cbn; auto.
  split; [discriminate | auto].
Qed.

Lemma doTest4_verdict (srvAddr : option UDPAddr) (c : Client) (w : World) :
  final_verdict (fst (fst (doTest4 srvAddr c w)))
  /\ snd (fst (doTest4 srvAddr c w)) = c.
Proof.
  unfold doTest4.
  destruct (buildBindingRequest false true w) as [pkg w0].
  destruct (fsmSendPackageWaitReply c pkg srvAddr (fchk4 srvAddr) w0)
    as [r w1].
  destruct r as [[[reply |] | e] | |]; cbn; auto.
Qed.

Section ProbeVerdicts.

Variable UDPAddr_String : option UDPAddr -> string.

Lemma doTest2_verdict (srvAddr : option UDPAddr) (c : Client) (w : World) :
  error_iff_NATTypeError (fst (fst (doTest2 UDPAddr_String srvAddr c w)))
  /\ snd (fst (doTest2 UDPAddr_String srvAddr c w)) = c.
Proof.
  unfold doTest2.
  destruct (buildBindingRequest true true w) as [pkg w0].
  destruct (fsmSendPackageWaitReply c pkg srvAddr (fchk2 UDPAddr_String) w0)
    as [r w1].
  destruct r as [[[reply |] | e] | |]; cbn; auto;
    destruct (String.eqb _ _); cbn; split; auto; discriminate.
Qed.

Lemma doTest3_verdict (srvAddr : option UDPAddr) (c : Client) (w : World) :
  error_iff_NATTypeError (fst (fst (doTest3 UDPAddr_String srvAddr c w)))
  /\ snd (fst (doTest3 UDPAddr_String srvAddr c w)) = c.
Proof.
  unfold doTest3.
  destruct (buildBindingRequest false false w) as [pkg w0].
  destruct (fsmSendPackageWaitReply c pkg srvAddr fchk3 w0) as [r w1].
  destruct r as [[[reply |] | e] | |]; cbn; auto.
  destruct (getMappedAddr reply) as [nmapAddr | |]; cbn; auto.
  destruct (negb _); cbn; split; auto; discriminate.
Qed.

Lemma terminal_verdict (r : NATType * option error) :
  error_iff_NATTypeError (Ret r) -> terminal r = true -> final_verdict (Ret r).
Proof.
  destruct r as [t [e |]]; cbn; [auto |].
  destruct t; cbn; intros H1 H2; congruence.
Qed.

Lemma doDetect_final (c : Client) (w : World) :
  final_verdict (fst (fst (doDetect UDPAddr_String c w))).
Proof.
  unfold doDetect.
  pose proof (doTest1_verdict (nSrvAddr c) c w) as (H1 & _).
  destruct (doTest1 (nSrvAddr c) c w) as [[[r1 | |] c1] w1];
    cbn [fst] in H1; try exact I.
  destruct (terminal r1) eqn:T1; [exact (terminal_verdict r1 H1 T1) |].
  pose proof (doTest2_verdict (nSrvAddr c1) c1 w1) as (H2 & _).
  destruct (doTest2 UDPAddr_String (nSrvAddr c1) c1 w1)
    as [[[r2 | |] c2] w2]; cbn [fst] in H2; try exact I.
  destruct (terminal r2) eqn:T2; [exact (terminal_verdict r2 H2 T2) |].
  pose proof (doTest3_verdict (nChangedAddr c2) c2 w2) as (H3 & _).
  destruct (doTest3 UDPAddr_String (nChangedAddr c2) c2 w2)
    as [[[r3 | |] c3] w3]; cbn [fst] in H3; try exact I.
  destruct (terminal r3) eqn:T3; [exact (terminal_verdict r3 H3 T3) |].
  exact (proj1 (doTest4_verdict (nSrvAddr c3) c3 w3)).
Qed.

(** X13.  Only Test1 writes to the client, and only its mapped and
    changed address: after [doDetect] the client is the one Test1 left,
    with the local and the server address it started with. *)
Theorem doDetect_client (c : Client) (w : World) :
  snd (fst (doDetect UDPAddr_String c w))
  = snd (fst (doTest1 (nSrvAddr c) c w))
  /\ nLocalAddr (snd (fst (doDetect UDPAddr_String c w))) = nLocalAddr c
  /\ nSrvAddr (snd (fst (doDetect UDPAddr_String c w))) = nSrvAddr c.
Proof.
  assert (H : snd (fst (doDetect UDPAddr_String c w))
              = snd (fst (doTest1 (nSrvAddr c) c w))).
  { unfold doDetect.
    destruct (doTest1 (nSrvAddr c) c w) as [[[r1 | |] c1] w1];
      try reflexivity.
    destruct (terminal r1); [reflexivity |].
    pose proof (doTest2_verdict (nSrvAddr c1) c1 w1) as (_ & K2).
    destruct (doTest2 UDPAddr_String (nSrvAddr c1) c1 w1)
      as [[[r2 | |] c2] w2]; cbn [fst snd] in K2 |- *; try exact K2.
    destruct (terminal r2); [exact K2 |]. subst c2.
    pose proof (doTest3_verdict (nChangedAddr c1) c1 w2) as (_ & K3).
    destruct (doTest3 UDPAddr_String (nChangedAddr c1) c1 w2)
      as [[[r3 | |] c3] w3]; cbn [fst snd] in K3 |- *; try exact K3.
    destruct (terminal r3); [exact K3 |]. subst c3.
    exact (proj2 (doTest4_verdict (nSrvAddr c1) c1 w3)). }
  rewrite H. split; [reflexivity |].
  exact (proj2 (doTest1_verdict (nSrvAddr c) c w)).
Qed.

End ProbeVerdicts.

Lemma fsm_no_reply (c : Client) (rqst : packet) (srvAddr : option UDPAddr)
    (fchk : chkfun) (w : World) :
  no_reply_world c rqst fchk w ->
  exists w',
    fsmSendPackageWaitReply c (Some rqst) srvAddr fchk w = (Ret (Ok None), w')
    /\ sent w' = sent w ++ repeat (serialize rqst, srvAddr) 9.
Proof.
  intros H.
  destruct (retransmit_no_reply c rqst srvAddr fchk maxRetransmitNum
              defRetransmitIntervalMs w H) as (w' & E & Hs & _).
  exists w'. split; assumption.
Qed.

(** X14.  Test1 with no reply: when the request is built and, nine times
    over, nothing acceptable answers it, [doTest1] returns UdpBlocked, and
    so does [doDetect], which stops there: in all, the plain request went
    nine times to the server and nothing else was sent; the client is
    unchanged. *)
Theorem doDetect_udp_blocked (UDPAddr_String : option UDPAddr -> string)
    (c : Client) (w w0 : World) (rqst : packet) :
  buildBindingRequest false false w = (Some rqst, w0) ->
  no_reply_world c rqst fchk1 w0 ->
  exists w',
    doTest1 (nSrvAddr c) c w = (Ret (NATTypeUdpBlocked, None), c, w')
    /\ doDetect UDPAddr_String c w = (Ret (NATTypeUdpBlocked, None), c, w')
    /\ sent w' = sent w ++ repeat (serialize rqst, nSrvAddr c) 9.
Proof.
  intros Hb Hn.
  destruct (fsm_no_reply c rqst (nSrvAddr c) fchk1 w0 Hn) as (w' & E & Hs).
  pose proof (buildBindingRequest_sent false false w) as Hsent.
  rewrite Hb in Hsent. cbn [snd] in Hsent.
  assert (H1 : doTest1 (nSrvAddr c) c w = (Ret (NATTypeUdpBlocked, None), c, w'))
    by (unfold doTest1; rewrite Hb, E; reflexivity).
  exists w'. split; [exact H1 |]. split.
  - unfold doDetect. rewrite H1. reflexivity.
  - now rewrite Hs, Hsent.
Qed.

Lemma doDetect_udp_blocked_witness :
  exists w',
    doTest1 (nSrvAddr demo_client) demo_client silent_world
    = (Ret (NATTypeUdpBlocked, None), demo_client, w')
    /\ doDetect raw_String demo_client silent_world
       = (Ret (NATTypeUdpBlocked, None), demo_client, w')
    /\ sent w'
       = sent silent_world
         ++ repeat (serialize
                      (new_message msgTypeBindingRequest
                         (hex [0xa2; 0x40; 0x02; 0x27] ++ repeat x00 12)),
                    nSrvAddr demo_client) 9.
Proof.
  apply (doDetect_udp_blocked raw_String demo_client silent_world
           silent_world
           (new_message msgTypeBindingRequest
              (hex [0xa2; 0x40; 0x02; 0x27] ++ repeat x00 12))).
  - reflexivity.
  - repeat split; constructor.
Defined.

(** X15.  The later probes with no reply: when the request is built and,
    nine times over, nothing acceptable answers it, [doTest3] returns
    [NATTypeError] with the error "the CHANGED server had NO answer", and
    [doTest4] returns PortRestricted without an error; either has sent its
    request nine times to the address it was given. *)
Theorem probes_without_reply (UDPAddr_String : option UDPAddr -> string)
    (srvAddr : option UDPAddr) (c : Client) (w w0 : World) (rqst : packet) :
  (buildBindingRequest false false w = (Some rqst, w0) ->
   no_reply_world c rqst fchk3 w0 ->
   exists w',
     doTest3 UDPAddr_String srvAddr c w
     = (Ret (NATTypeError,
             Some (errors_New "the CHANGED server had NO answer")), c, w')
     /\ sent w' = sent w ++ repeat (serialize rqst, srvAddr) 9)
  /\ (buildBindingRequest false true w = (Some rqst, w0) ->
      no_reply_world c rqst (fchk4 srvAddr) w0 ->
      exists w',
        doTest4 srvAddr c w = (Ret (NATTypePortRestricted, None), c, w')
        /\ sent w' = sent w ++ repeat (serialize rqst, srvAddr) 9).
Proof.
  split; intros Hb Hn.
  - destruct (fsm_no_reply c rqst srvAddr fchk3 w0 Hn) as (w' & E & Hs).
    pose proof (buildBindingRequest_sent false false w) as Hsent.
    rewrite Hb in Hsent. cbn [snd] in Hsent.
    exists w'. split; [unfold doTest3; rewrite Hb, E; reflexivity |].
    now rewrite Hs, Hsent.
  - destruct (fsm_no_reply c rqst srvAddr (fchk4 srvAddr) w0 Hn)
      as (w' & E & Hs).
    pose proof (buildBindingRequest_sent false true w) as Hsent.
    rewrite Hb in Hsent. cbn [snd] in Hsent.
    exists w'. split; [unfold doTest4; rewrite Hb, E; reflexivity |].
    now rewrite Hs, Hsent.
Qed.

Lemma probes_without_reply_witness :
  exists w',
    doTest4 (Some demo_server) demo_client silent_world
    = (Ret (NATTypePortRestricted, None), demo_client, w')
    /\ sent w'
       = sent silent_world
         ++ repeat (serialize
                      (the_request (buildBindingRequest false true
                                      silent_world)),
                    Some demo_server) 9.
Proof.
  apply (proj2 (probes_without_reply raw_String (Some demo_server)
                  demo_client silent_world silent_world
                  (the_request (buildBindingRequest false true
                                  silent_world)))).
  - reflexivity.
  - repeat split; constructor.
Defined.

Lemma buildBindingRequest_read_q (changeIP changePort : bool) (w : World) :
  read_q (snd (buildBindingRequest changeIP changePort w)) = read_q w.
Proof.
  unfold buildBindingRequest, rand_Read.
  destruct (rand_q w) as [| [bs | err] q]; cbn;
    destruct (changeIP || changePort); reflexivity.
Qed.

(** A reply handed to a probe, traced back to the datagram it was. *)
Lemma probe_reply (changeIP changePort : bool) (c : Client)
    (srvAddr : option UDPAddr) (fchk : chkfun) (w w1 : World)
    (pkg : option packet) (w0 : World) (reply : packet) :
  buildBindingRequest changeIP changePort w = (pkg, w0) ->
  fsmSendPackageWaitReply c pkg srvAddr fchk w0 = (Ret (Ok (Some reply)), w1) ->
  exists rqst data peerAddr p0,
    pkg = Some rqst
    /\ In (ReadData data peerAddr) (read_q w)
    /\ parsePackage (firstn maxPacketSize data) = Ret (Ok p0)
    /\ reply = set_orgHost p0 (Some peerAddr)
    /\ transID p0 = transID rqst
    /\ fchk c reply = Ret true.
Proof.
  intros Hb Hf.
  pose proof (buildBindingRequest_read_q changeIP changePort w) as Hq.
  rewrite Hb in Hq. cbn [snd] in Hq.
  destruct pkg as [rqst |]; [| discriminate].
  unfold fsmSendPackageWaitReply in Hf.
  apply retransmit_reply in Hf as (data & peerAddr & p0 & H1 & H2 & H3 & H4 & H5).
  exists rqst, data, peerAddr, p0. rewrite <- Hq. repeat split; assumption.
Qed.

(** X16.  What a verdict vouches for.  [doTest4] answers Restricted only
    if a datagram with the transaction id of its request came from a port
    other than the one the request went to; [doTest2] answers OpenInternet
    or FullCone only if such a datagram came from a sender that prints like
    the changed address of the client; [doTest3] answers Symmetric only if
    such a datagram carries a MAPPED-ADDRESS that prints unlike the mapped
    address of the client. *)
Theorem verdicts_sound (UDPAddr_String : option UDPAddr -> string)
    (srvAddr : option UDPAddr) (c c' : Client) (w w' : World) :
  (doTest4 srvAddr c w = (Ret (NATTypeRestricted, None), c', w') ->
   exists srv data peerAddr p0,
     srvAddr = Some srv
     /\ In (ReadData data peerAddr) (read_q w)
     /\ parsePackage (firstn maxPacketSize data) = Ret (Ok p0)
     /\ transID p0
        = transID (the_request (buildBindingRequest false true w))
     /\ Port peerAddr <> Port srv)
  /\ (forall t, t = NATTypeOpenInternet \/ t = NATTypeFullCone ->
      doTest2 UDPAddr_String srvAddr c w = (Ret (t, None), c', w') ->
      exists data peerAddr p0,
        In (ReadData data peerAddr) (read_q w)
        /\ parsePackage (firstn maxPacketSize data) = Ret (Ok p0)
        /\ transID p0
           = transID (the_request (buildBindingRequest true true w))
        /\ UDPAddr_String (Some peerAddr)
           = UDPAddr_String (nChangedAddr c))
  /\ (doTest3 UDPAddr_String srvAddr c w
      = (Ret (NATTypeSymmetric, None), c', w') ->
      exists data peerAddr p0 mapped,
        In (ReadData data peerAddr) (read_q w)
        /\ parsePackage (firstn maxPacketSize data) = Ret (Ok p0)
        /\ transID p0
           = transID (the_request (buildBindingRequest false false w))
        /\ getMappedAddr p0 = Ret (Some mapped)
        /\ UDPAddr_String (Some mapped) <> UDPAddr_String (nMappedAddr c)).
Proof.
  split; [| split].
  - unfold doTest4, the_request. intros H.
    destruct (buildBindingRequest false true w) as [pkg w0] eqn:Hb.
    destruct (fsmSendPackageWaitReply c pkg srvAddr (fchk4 srvAddr) w0)
      as [r w1] eqn:Hf.
    destruct r as [[[reply |] | e] | |]; try discriminate.
    destruct (probe_reply _ _ _ _ _ _ _ _ _ _ Hb Hf)
      as (rqst & data & peerAddr & p0 & -> & Hin & Hp & -> & Hid & Hchk).
    unfold fchk4 in Hchk. cbn [set_orgHost orgHost] in Hchk.
    destruct srvAddr as [srv |]; [| discriminate].
    destruct (Z.eqb_spec (Port peerAddr) (Port srv)) as [Heq | Hne];
      [discriminate |].
    exists srv, data, peerAddr, p0. cbn [fst]. repeat split; assumption.
  - unfold doTest2, the_request. intros t Ht H.
    destruct (buildBindingRequest true true w) as [pkg w0] eqn:Hb.
    destruct (fsmSendPackageWaitReply c pkg srvAddr (fchk2 UDPAddr_String) w0)
      as [r w1] eqn:Hf.
    destruct r as [[[reply |] | e] | |]; try discriminate.
    + destruct (probe_reply _ _ _ _ _ _ _ _ _ _ Hb Hf)
        as (rqst & data & peerAddr & p0 & -> & Hin & Hp & -> & Hid & Hchk).
      unfold fchk2 in Hchk. cbn [set_orgHost orgHost] in Hchk.
      destruct (String.eqb_spec (UDPAddr_String (nChangedAddr c))
                  (UDPAddr_String (Some peerAddr))) as [Heq | Hne];
        [| discriminate].
      exists data, peerAddr, p0. cbn [fst]. repeat split; auto.
    + destruct (String.eqb _ _); injection H as <- _ _;
        destruct Ht; discriminate.
  - unfold doTest3, the_request. intros H.
    destruct (buildBindingRequest false false w) as [pkg w0] eqn:Hb.
    destruct (fsmSendPackageWaitReply c pkg srvAddr fchk3 w0)
      as [r w1] eqn:Hf.
    destruct r as [[[reply |] | e] | |]; try discriminate.
    destruct (probe_reply _ _ _ _ _ _ _ _ _ _ Hb Hf)
      as (rqst & data & peerAddr & p0 & -> & Hin & Hp & -> & Hid & Hchk).
    unfold fchk3 in Hchk.
    change (getMappedAddr (set_orgHost p0 (Some peerAddr)))
      with (getMappedAddr p0) in *.
    destruct (getMappedAddr p0) as [[mapped |] | |] eqn:Em;
      cbn [bind is_nil] in Hchk; try discriminate.
    destruct (String.eqb_spec (UDPAddr_String (Some mapped))
                (UDPAddr_String (nMappedAddr c))) as [Heq | Hne];
      cbn [negb] in H; [discriminate |].
    exists data, peerAddr, p0, mapped. cbn [fst]. repeat split; auto.
Qed.

Lemma verdicts_sound_witness :
  exists srv data peerAddr p0,
    Some demo_server = Some srv
    /\ In (ReadData data peerAddr) (read_q restricted_world)
    /\ parsePackage (firstn maxPacketSize data) = Ret (Ok p0)
    /\ transID p0
       = transID (the_request (buildBindingRequest false true
                                 restricted_world))
    /\ Port peerAddr <> Port srv.
Proof.
  apply (proj1 (verdicts_sound raw_String (Some demo_server) demo_client
                  demo_client restricted_world
                  (snd (doTest4 (Some demo_server) demo_client
                          restricted_world)))).
  vm_compute. reflexivity.
Defined.

(** ** The entry point *)

Lemma listen_fchk_ext (c c' : Client) (rqst : packet) (fchk : chkfun) :
  (forall p, fchk c p = fchk c' p) ->
  forall rq, listen c rqst fchk rq = listen c' rqst fchk rq.
Proof.
  intros Hext. induction rq as [| r rq IH]; [reflexivity |].
  cbn [listen]. destruct r as [data peerAddr | e]; [| reflexivity].
  destruct (parsePackage (firstn maxPacketSize data)) as [[p | e] | |];
    try reflexivity.
  rewrite IH, Hext. reflexivity.
Qed.

Lemma retransmit_fchk_ext (c c' : Client) (rqst : packet) (b : list byte)
    (addr : option UDPAddr) (fchk : chkfun) :
  (forall p, fchk c p = fchk c' p) ->
  forall n timeout w,
  retransmit n c rqst b addr fchk timeout w
  = retransmit n c' rqst b addr fchk timeout w.
Proof.
  intros Hext. induction n as [| n IH]; intros timeout w; [reflexivity |].
  cbn [retransmit].
  destruct (WriteTo b addr w) as [[length err] w1].
  destruct err as [err |]; [reflexivity |].
  destruct (negb (length =? len b)); [reflexivity |].
  destruct (SetReadDeadline timeout w1) as [err w2].
  destruct err as [err |]; [reflexivity |].
  rewrite (listen_fchk_ext c c' rqst fchk Hext).
  destruct (listen c' rqst fchk (read_q w2)) as [[r |] rq]; [reflexivity |].
  apply IH.
Qed.

(** Test1 reads nothing of the client but writes the two addresses it
    learns. *)
Lemma doTest1_stale (srvAddr : option UDPAddr) (c c' : Client) (w : World) :
  nLocalAddr c = nLocalAddr c' -> nSrvAddr c = nSrvAddr c' ->
  fst (fst (doTest1 srvAddr c w)) = fst (fst (doTest1 srvAddr c' w))
  /\ snd (doTest1 srvAddr c w) = snd (doTest1 srvAddr c' w)
  /\ (fst (fst (doTest1 srvAddr c w)) = Ret (NATTypeUnknown, None) ->
      snd (fst (doTest1 srvAddr c w)) = snd (fst (doTest1 srvAddr c' w))).
Proof.
  intros Hl Hs. unfold doTest1.
  destruct (buildBindingRequest false false w) as [pkg w0].
  assert (E : fsmSendPackageWaitReply c pkg srvAddr fchk1 w0
              = fsmSendPackageWaitReply c' pkg srvAddr fchk1 w0).
  { unfold fsmSendPackageWaitReply. destruct pkg as [rqst |]; [| reflexivity].
    apply retransmit_fchk_ext. reflexivity. }
  rewrite E.
  destruct (fsmSendPackageWaitReply c' pkg srvAddr fchk1 w0) as [r w1].
  destruct r as [[[reply |] | e] | |]; cbn;
    try (split; [reflexivity | split; [reflexivity | discriminate]]).
  destruct (getMappedAddr reply) as [m | |]; cbn;
    try (split; [reflexivity | split; [reflexivity | discriminate]]).
  destruct (getChangedAddr reply) as [ch | |]; cbn;
    try (split; [reflexivity | split; [reflexivity | discriminate]]).
  split; [reflexivity |]. split; [reflexivity |]. intros _.
  unfold set_nChangedAddr, set_nMappedAddr. cbn. now rewrite Hl, Hs.
Qed.

Section EntryPoint.

Variable UDPAddr_String : option UDPAddr -> string.

Lemma doDetect_stale (c c' : Client) (w : World) :
  nLocalAddr c = nLocalAddr c' -> nSrvAddr c = nSrvAddr c' ->
  fst (fst (doDetect UDPAddr_String c w))
  = fst (fst (doDetect UDPAddr_String c' w))
  /\ snd (doDetect UDPAddr_String c w) = snd (doDetect UDPAddr_String c' w).
Proof.
  intros Hl Hs. unfold doDetect. rewrite <- Hs.
  destruct (doTest1_stale (nSrvAddr c) c c' w Hl Hs) as (H1 & H2 & H3).
  destruct (doTest1 (nSrvAddr c) c w) as [[r c1] w1].
  destruct (doTest1 (nSrvAddr c) c' w) as [[r' c1'] w1'].
  cbn [fst snd] in H1, H2, H3. subst r' w1'.
  destruct r as [r1 | |]; try (split; reflexivity).
  destruct (terminal r1) eqn:T1; [split; reflexivity |].
  apply terminal_false in T1. subst r1.
  rewrite <- (H3 eq_refl). split; reflexivity.
Qed.

Variable env : Setup.

(** X17.  [Discovery] never returns [NATTypeUnknown], and returns
    [NATTypeError] exactly when it returns an error: whatever the setup and
    the network do, a [Discovery] (or a [doDetect]) that returns, returns
    either [NATTypeError] with an error or one of the seven classifications
    with none. *)
Theorem Discovery_verdict (srvAddrStr : string) (c : Client) (w : World) :
  final_verdict (fst (fst (doDetect UDPAddr_String c w)))
  /\ final_verdict
       (fst (fst (fst (Discovery UDPAddr_String env srvAddrStr c w)))).
Proof.
  split; [apply doDetect_final |].
  unfold Discovery.
  destruct (ResolveUDPAddr env _) as [[serverUDPAddr |] | err];
    try reflexivity.
  destruct (DialUDP env serverUDPAddr) as [lcUdpAddr | err]; try reflexivity.
  destruct (buildBindingRequest false false w) as [[pkg |] w0];
    try reflexivity.
  destruct lcUdpAddr as [lcUdpAddr |]; try reflexivity.
  cbn [nLocalAddr].
  destruct (ListenUDP env (Some lcUdpAddr)) as [err |]; try reflexivity.
  apply doDetect_final.
Qed.

(** X18.  A [Client] can be reused: the verdict of [Discovery], what it
    leaves of the world and what it wrote to the dialled connection do not
    depend on the client it is called on (whatever addresses an earlier run
    left in it). *)
Theorem Discovery_reusable (srvAddrStr : string) (c c' : Client) (w : World) :
  fst (fst (fst (Discovery UDPAddr_String env srvAddrStr c w)))
  = fst (fst (fst (Discovery UDPAddr_String env srvAddrStr c' w)))
  /\ snd (fst (Discovery UDPAddr_String env srvAddrStr c w))
     = snd (fst (Discovery UDPAddr_String env srvAddrStr c' w))
  /\ snd (Discovery UDPAddr_String env srvAddrStr c w)
     = snd (Discovery UDPAddr_String env srvAddrStr c' w).
Proof.
  unfold Discovery.
  destruct (ResolveUDPAddr env _) as [[serverUDPAddr |] | err];
    try (repeat split; reflexivity).
  destruct (DialUDP env serverUDPAddr) as [lcUdpAddr | err];
    try (repeat split; reflexivity).
  destruct (buildBindingRequest false false w) as [[pkg |] w0];
    try (repeat split; reflexivity).
  destruct lcUdpAddr as [lcUdpAddr |]; try (repeat split; reflexivity).
  cbn [nLocalAddr].
  destruct (ListenUDP env (Some lcUdpAddr)) as [err |];
    try (repeat split; reflexivity).
  cbn [fst snd].
  match goal with
  | |- context [doDetect UDPAddr_String ?a w0] =>
      match goal with
      | |- context [doDetect UDPAddr_String ?b w0] =>
          tryif constr_eq a b then fail else
            destruct (doDetect_stale a b w0 eq_refl eq_refl) as (H1 & H2)
      end
  end.
  split; [exact H1 |]. split; [exact H2 | reflexivity].
Qed.

End EntryPoint.

(** X19.  [Discovery] guards its own request against a failing random
    source, and only that one: with a server that resolves and a
    connection that opens, a failure of the first [rand.Read] makes it
    return [NATTypeError] with the error "runtime error", nothing having
    been written; a failure of the second one, which is Test1's, makes it
    panic. *)
Theorem Discovery_random_source
    (UDPAddr_String : option UDPAddr -> string) (env : Setup)
    (srvAddrStr : string) (c : Client) (w : World)
    (serverUDPAddr lcUdpAddr : UDPAddr) (err : error)
    (q : list (res (list byte))) :
  ResolveUDPAddr env
    (if String.eqb srvAddrStr "" then DefaultServerAddr else srvAddrStr)
  = Ok (Some serverUDPAddr) ->
  DialUDP env serverUDPAddr = Ok (Some lcUdpAddr) ->
  (rand_q w = Err err :: q ->
   fst (fst (fst (Discovery UDPAddr_String env srvAddrStr c w)))
   = Ret (NATTypeError, Some (errors_New "runtime error"))
   /\ snd (fst (fst (Discovery UDPAddr_String env srvAddrStr c w))) = c
   /\ sent (snd (fst (Discovery UDPAddr_String env srvAddrStr c w)))
      = sent w
   /\ snd (Discovery UDPAddr_String env srvAddrStr c w) = [])
  /\ (forall bs, rand_q w = Ok bs :: Err err :: q ->
      ListenUDP env (Some lcUdpAddr) = None ->
      fst (fst (fst (Discovery UDPAddr_String env srvAddrStr c w))) = Panic
      /\ sent (snd (fst (Discovery UDPAddr_String env srvAddrStr c w)))
         = sent w).
Proof.
  intros Hr Hd. unfold Discovery. rewrite Hr, Hd. split.
  - intros Hq. unfold buildBindingRequest, rand_Read. rewrite Hq.
    cbn. repeat split; reflexivity.
  - intros bs Hq Hl.
    destruct (buildBindingRequest false false w) as [pkg w0] eqn:Hb.
    unfold buildBindingRequest, rand_Read in Hb. rewrite Hq in Hb.
    cbn [newPacket orb] in Hb. injection Hb as <- <-.
    cbn [nLocalAddr]. rewrite Hl.
    unfold doDetect, doTest1, buildBindingRequest, rand_Read.
    cbn. split; reflexivity.
Qed.

Lemma Discovery_random_source_witness :
  fst (fst (fst (Discovery raw_String demo_setup "" NewClient
                   {| rand_q := [Err (errors_New "unexpected EOF")];
                      write_q := []; deadline_q := []; read_q := [];
                      sent := []; deadlines := [] |})))
  = Ret (NATTypeError, Some (errors_New "runtime error")).
Proof.
  refine (proj1 (proj1 (Discovery_random_source raw_String demo_setup ""
                          NewClient _ demo_server
                          {| IP := hex [154; 89; 5; 1]; Port := 46425;
                             Zone := EmptyString |}
                          (errors_New "unexpected EOF") [] _ _) _)).
  - reflexivity.
  - reflexivity.
  - reflexivity.
Defined.

(** X20.  When the setup fails, [Discovery] returns [NATTypeError] with an
    error and the listening socket has sent nothing: a name that does not
    resolve gives the resolver's error, or "cat resolve STUN server:" and
    the name when the resolver returns nil; a connection that does not
    open gives "fail to connect to STUN server:" and the name, the error of
    [DialUDP] being dropped; a connection without a local address gives
    "runtime error"; a socket that does not open gives the error of
    [ListenUDP], the client by then holding the local and the server
    address.  In the last two cases the request has already been written to
    the dialled connection.  The empty name stands for
    [DefaultServerAddr]. *)
Theorem Discovery_setup_failure
    (UDPAddr_String : option UDPAddr -> string) (env : Setup)
    (srvAddrStr : string) (c : Client) (w : World) :
  let name :=
    if String.eqb srvAddrStr "" then DefaultServerAddr else srvAddrStr in
  let run := Discovery UDPAddr_String env srvAddrStr c w in
  (forall err, ResolveUDPAddr env name = Err err ->
     run = ((Ret (NATTypeError, Some err), c, w), []))
  /\ (ResolveUDPAddr env name = Ok None ->
      run = ((Ret (NATTypeError,
                   Some (errors_New ("cat resolve STUN server:" ++ name))),
              c, w), []))
  /\ (forall serverUDPAddr err,
      ResolveUDPAddr env name = Ok (Some serverUDPAddr) ->
      DialUDP env serverUDPAddr = Err err ->
      run = ((Ret (NATTypeError,
                   Some (errors_New
                           ("fail to connect to STUN server:" ++ name))),
              c, w), []))
  /\ (forall serverUDPAddr pkg w0,
      ResolveUDPAddr env name = Ok (Some serverUDPAddr) ->
      DialUDP env serverUDPAddr = Ok None ->
      buildBindingRequest false false w = (Some pkg, w0) ->
      run = ((Ret (NATTypeError, Some (errors_New "runtime error")), c, w0),
             [serialize pkg])
      /\ sent w0 = sent w)
  /\ (forall serverUDPAddr lcUdpAddr pkg w0 err,
      ResolveUDPAddr env name = Ok (Some serverUDPAddr) ->
      DialUDP env serverUDPAddr = Ok (Some lcUdpAddr) ->
      buildBindingRequest false false w = (Some pkg, w0) ->
      ListenUDP env (Some lcUdpAddr) = Some err ->
      run = ((Ret (NATTypeError, Some err),
              {| nLocalAddr := Some lcUdpAddr;
                 nSrvAddr := Some serverUDPAddr;
                 nChangedAddr := nChangedAddr c;
                 nMappedAddr := nMappedAddr c |}, w0),
             [serialize pkg])
      /\ sent w0 = sent w)
  /\ Discovery UDPAddr_String env "" c w
     = Discovery UDPAddr_String env DefaultServerAddr c w.
Proof.
  cbv zeta. unfold Discovery.
  set (name := if String.eqb srvAddrStr "" then DefaultServerAddr
               else srvAddrStr).
  pose proof (buildBindingRequest_sent false false w) as Hsent.
  split; [intros err ->; reflexivity |].
  split; [intros ->; reflexivity |].
  split; [intros serverUDPAddr err -> ->; reflexivity |].
  split.
  { intros serverUDPAddr pkg w0 -> -> Hb. rewrite Hb in Hsent |- *.
    split; [reflexivity | exact Hsent]. }
  split; [| reflexivity].
  intros serverUDPAddr lcUdpAddr pkg w0 err -> -> Hb Hl.
  rewrite Hb in Hsent |- *. cbn [nLocalAddr]. rewrite Hl.
  split; [reflexivity | exact Hsent].
Qed.

Lemma Discovery_setup_failure_witness :
  Discovery raw_String
    {| ResolveUDPAddr :=
         fun _ => Err (errors_New "no such host");
       DialUDP := fun _ => Ok None;
       ListenUDP := fun _ => None |}
    "stun.example.org:3478" NewClient silent_world
  = ((Ret (NATTypeError, Some (errors_New "no such host")), NewClient,
      silent_world), []).
Proof.
  exact (proj1 (Discovery_setup_failure raw_String
                  {| ResolveUDPAddr :=
                       fun _ => Err (errors_New "no such host");
                     DialUDP := fun _ => Ok None;
                     ListenUDP := fun _ => None |}
                  "stun.example.org:3478" NewClient silent_world)
           (errors_New "no such host") eq_refl).
Defined.

(** ** const.go *)

(** X21.  Every NAT type has a description of its own, none of them
    "Unknown"; [String] answers "Unknown" exactly for the integers that
    are not one of the nine NAT types. *)
Theorem NATType_String_descriptions :
  (forall t, NATType_String (NATType_code t) <> "Unknown"%string)
  /\ (forall t t',
      NATType_String (NATType_code t) = NATType_String (NATType_code t') ->
      t = t')
  /\ (forall n, NATType_String n = "Unknown"%string <-> (n < 0 \/ 8 < n))
  /\ NATType_String (NATType_code NATTypeUnknown)
     = "NAT type indeterminacy"%string
  /\ NATType_String (NATType_code NATTypeError) = "Detecting failed"%string.
Proof.
  split; [intros []; vm_compute; discriminate |].
  split; [intros [] []; vm_compute; intros H; try reflexivity; discriminate |].
  split; [| split; reflexivity].
  intros n. split.
  - intros H.
    destruct (Z.lt_ge_cases n 0) as [Hlt | Hge]; [now left |].
    destruct (Z.lt_ge_cases 8 n) as [Hgt | Hle]; [now right |].
    exfalso.
    assert (Hn : n = 0 \/ n = 1 \/ n = 2 \/ n = 3 \/ n = 4 \/ n = 5
                 \/ n = 6 \/ n = 7 \/ n = 8) by lia.
    destruct Hn as [-> | [-> | [-> | [-> | [-> | [-> | [-> | [-> | ->]]]]]]]];
      vm_compute in H; discriminate.
  - intros Hn. unfold NATType_String, natTypeDescription.
    cbn [map_lookup NATType_code].
    repeat match goal with
           | |- context [?k =? n] =>
               replace (k =? n) with false by (symmetry; apply Z.eqb_neq; lia)
           end.
    reflexivity.
Qed.

(** ** What Test1 learns *)

(** X22.  When [doTest1] ends without a verdict, the client holds a mapped
    and a changed address, neither of them nil: the ones the accessors
    decode from a datagram that was received with the transaction id of
    the request; the local and the server address are as before. *)
Theorem doTest1_learns (srvAddr : option UDPAddr) (c c1 : Client)
    (w w1 : World) :
  doTest1 srvAddr c w = (Ret (NATTypeUnknown, None), c1, w1) ->
  exists data peerAddr p0 mapped changed,
    In (ReadData data peerAddr) (read_q w)
    /\ parsePackage (firstn maxPacketSize data) = Ret (Ok p0)
    /\ transID p0 = transID (the_request (buildBindingRequest false false w))
    /\ getMappedAddr p0 = Ret (Some mapped)
    /\ getChangedAddr p0 = Ret (Some changed)
    /\ c1 = {| nLocalAddr := nLocalAddr c; nSrvAddr := nSrvAddr c;
               nChangedAddr := Some changed; nMappedAddr := Some mapped |}.
Proof.
  unfold doTest1, the_request. intros H.
  destruct (buildBindingRequest false false w) as [pkg w0] eqn:Hb.
  destruct (fsmSendPackageWaitReply c pkg srvAddr fchk1 w0) as [r w'] eqn:Hf.
  destruct r as [[[reply |] | e] | |]; try discriminate.
  destruct (probe_reply _ _ _ _ _ _ _ _ _ _ Hb Hf)
    as (rqst & data & peerAddr & p0 & -> & Hin & Hp & -> & Hid & Hchk).
  unfold fchk1 in Hchk.
  change (getMappedAddr (set_orgHost p0 (Some peerAddr)))
    with (getMappedAddr p0) in *.
  change (getChangedAddr (set_orgHost p0 (Some peerAddr)))
    with (getChangedAddr p0) in *.
  destruct (getMappedAddr p0) as [[mapped |] | |] eqn:Em;
    cbn [bind] in Hchk; try discriminate;
    destruct (getChangedAddr p0) as [[changed |] | |] eqn:Ec;
    cbn [bind is_nil orb] in Hchk; try discriminate.
  injection H as <- _.
  exists data, peerAddr, p0, mapped, changed. cbn [fst].
  repeat split; assumption.
Qed.

Lemma doTest1_learns_witness :
  exists data peerAddr p0 mapped changed,
    In (ReadData data peerAddr) (read_q demo_world)
    /\ parsePackage (firstn maxPacketSize data) = Ret (Ok p0)
    /\ transID p0
       = transID (the_request (buildBindingRequest false false demo_world))
    /\ getMappedAddr p0 = Ret (Some mapped)
    /\ getChangedAddr p0 = Ret (Some changed)
    /\ demo_c1
       = {| nLocalAddr := nLocalAddr demo_client;
            nSrvAddr := nSrvAddr demo_client;
            nChangedAddr := Some changed; nMappedAddr := Some mapped |}.
Proof.
  apply (doTest1_learns (nSrvAddr demo_client) demo_client demo_c1
           demo_world (snd demo_test1)).
  vm_compute. reflexivity.
Defined.
